(** * windtools.io.binary: the [BinaryFile] helper class

    A shallow embedding of [src/windtools/io/binary.py].  The class wraps a
    binary file handle [self.f] and reads or writes fixed-width scalars
    through Python's [struct] module in native mode.

    - Python exceptions are an [outcome]; a method is a function from the
      handle to an outcome and the handle afterwards, so that the state a
      failing call leaves behind stays visible.
    - The handle is the file's bytes, a position and the closed flag; it is
      taken to be open in a mode that allows the operation at hand and to
      write at its position.  A handle opened for appending, which writes
      at end of file, is the handle moved there ([at_end]).
    - An element count [N] is a natural number.
    - [struct] is modelled for the native-mode format language the class
      feeds it: white space, decimal repeat counts and the codes
      [b h i l f d]; every other character is a bad character, as the ['{']
      of an unformatted template is.  The size of a C [long] and the byte
      order are the platform's and are kept as parameters.
    - A Python float is represented by its value as a [spec_float] (sign,
      mantissa, exponent; a NaN has no payload).
    - Text is a [string] of characters below 256; the raw [write] encodes
      it as [str.encode] does for these.
    - Of the constructor, the handling of the mode is modelled; opening the
      file is not. *)

From Stdlib.Strings Require Import Ascii String Byte.
From Stdlib Require Import ZArith List Bool Arith Lia.
From Stdlib Require Decimal DecimalString DecimalNat DecimalFacts.
From Stdlib Require Import SpecFloat.
From Equations Require Import Equations.
Import ListNotations.

Local Open Scope Z_scope.

(** ** Exceptions and outcomes *)

Inductive exn : Type :=
| IOError              (* alias of OSError *)
| StructError          (* struct.error *)
| ValueError           (* I/O operation on closed file *)
| UnicodeDecodeError
| OverflowError
| IndexError
| TypeError.

Inductive outcome (A : Type) : Type :=
| Ok (a : A)
| Raise (e : exn).

Arguments Ok {A} a.
Arguments Raise {A} e.

(** ** The file handle [self.f] *)

Record file : Type := mkfile {
  content : list byte;   (* the bytes of the file *)
  pos : nat;             (* the stream position *)
  closed : bool
}.

Definition set_pos (h : file) (p : nat) : file :=
  {| content := content h; pos := p; closed := closed h |}.

(** Bytes left between the position and end of file. *)
Definition remaining (h : file) : nat := (length (content h) - pos h)%nat.

(** A method of the class: it may raise, and it leaves a handle behind in
    either case. *)
Definition M (A : Type) : Type := file -> outcome A * file.

Definition ret {A} (a : A) : M A := fun h => (Ok a, h).

Definition raise {A} (e : exn) : M A := fun h => (Raise e, h).

Definition bind {A B} (m : M A) (k : A -> M B) : M B :=
  fun h => match m h with
           | (Ok a, h') => k a h'
           | (Raise e, h') => (Raise e, h')
           end.

(** Lifting of a computation that cannot touch the handle. *)
Definition lift {A} (r : outcome A) : M A := fun h => (r, h).

Declare Scope py_scope.
Delimit Scope py_scope with py.
Notation "x <- m ;; k" := (bind m (fun x => k))
  (at level 100, m at next level, right associativity) : py_scope.
Notation "m ;;; k" := (bind m (fun _ => k))
  (at level 100, right associativity) : py_scope.

(** [self.f.read(n)]: at most [n] bytes, fewer only at end of file. *)
Definition f_read (n : nat) : M (list byte) := fun h =>
  if closed h then (Raise ValueError, h)
  else
    let bs := firstn n (skipn (pos h) (content h)) in
    (Ok bs, set_pos h (pos h + length bs)%nat).

(** [self.f.write(bs)] on a handle that writes at its position: overwrites
    from the position on and extends the file when the run goes past its
    end, filling a gap before the position with zero bytes; an empty run
    writes nothing and leaves the file as it is.  (A handle opened for
    appending writes at end of file instead, see [at_end].) *)
Definition f_write (bs : list byte) : M nat := fun h =>
  if closed h then (Raise ValueError, h)
  else
    match bs with
    | [] => (Ok O, h)
    | _ =>
        let c := content h in
        let before := firstn (pos h) c ++ repeat x00 (pos h - length c) in
        let after := skipn (pos h + length bs) c in
        (Ok (length bs),
         {| content := before ++ bs ++ after;
            pos := (pos h + length bs)%nat;
            closed := false |})
    end.

(** [self.f.close()]: closing a closed file object is allowed. *)
Definition f_close : M unit := fun h =>
  (Ok tt, {| content := content h; pos := pos h; closed := true |}).

(** ** Bytes and integers *)

Definition Z_of_byte (b : byte) : Z := Z.of_N (Byte.to_N b).

Definition byte_of_Z (z : Z) : byte :=
  match Byte.of_N (Z.to_N (z mod 256)) with
  | Some b => b
  | None => x00
  end.

(** Unsigned value of a byte run, least significant byte first. *)
Fixpoint le_unsigned (bs : list byte) : Z :=
  match bs with
  | [] => 0
  | b :: r => Z_of_byte b + 256 * le_unsigned r
  end.

(** The [w] low bytes of [z], least significant first (two's complement for
    a negative [z]). *)
Fixpoint le_bytes (w : nat) (z : Z) : list byte :=
  match w with
  | O => []
  | S w' => byte_of_Z z :: le_bytes w' (z / 256)
  end.

Definition to_signed (w : nat) (u : Z) : Z :=
  if u <? 2 ^ (8 * Z.of_nat w - 1) then u else u - 2 ^ (8 * Z.of_nat w).

Definition int_min (w : nat) : Z := - 2 ^ (8 * Z.of_nat w - 1).
Definition int_max (w : nat) : Z := 2 ^ (8 * Z.of_nat w - 1) - 1.

Definition in_range (w : nat) (z : Z) : bool :=
  (int_min w <=? z) && (z <=? int_max w).

(** ** IEEE-754 interchange formats

    [mw] is the width of the fraction field and [ew] of the exponent field:
    23 and 8 for binary32, 52 and 11 for binary64. *)

Definition bias (ew : Z) : Z := 2 ^ (ew - 1) - 1.

Definition float_of_bits (mw ew : Z) (x : Z) : spec_float :=
  let frac := x mod 2 ^ mw in
  let e := (x / 2 ^ mw) mod 2 ^ ew in
  let s := Z.odd (x / 2 ^ (mw + ew)) in
  if e =? 0 then
    match frac with
    | Zpos m => S754_finite s m (1 - bias ew - mw)
    | _ => S754_zero s
    end
  else if e =? 2 ^ ew - 1 then
    if frac =? 0 then S754_infinity s else S754_nan
  else
    match frac + 2 ^ mw with
    | Zpos m => S754_finite s m (e - bias ew - mw)
    | _ => S754_nan
    end.

(** Bit pattern of a float that is canonical for the format. *)
Definition bits_of_float (mw ew : Z) (x : spec_float) : Z :=
  let sign (s : bool) := if s then 2 ^ (mw + ew) else 0 in
  match x with
  | S754_zero s => sign s
  | S754_infinity s => sign s + (2 ^ ew - 1) * 2 ^ mw
  | S754_nan => (2 ^ ew - 1) * 2 ^ mw + 2 ^ (mw - 1)
  | S754_finite s m e =>
      if Zpos m <? 2 ^ mw then sign s + Zpos m
      else sign s + (e + bias ew + mw) * 2 ^ mw + (Zpos m - 2 ^ mw)
  end.

(** Rounding to nearest even into the format with precision [prec]. *)
Definition round_float (prec emax : Z) (x : spec_float) : spec_float :=
  match x with
  | S754_finite s m e => binary_round prec emax s m e
  | _ => x
  end.

Definition is_infinity (x : spec_float) : bool :=
  match x with
  | S754_infinity _ => true
  | _ => false
  end.

(** [float(z)] for a Python int. *)
Definition float_of_int (z : Z) : outcome spec_float :=
  let x := binary_normalize 53 1024 z 0 false in
  if is_infinity x then Raise OverflowError else Ok x.

(** ** Python values *)

#[warnings="-register-all"] Inductive pyval : Type :=
| VNone
| VInt (z : Z)
| VFloat (x : spec_float)      (* float *)
| VFloat32 (x : spec_float)    (* numpy.float32 *)
| VFloat64 (x : spec_float)    (* numpy.float64 *)
| VTuple (l : list pyval)
| VList (l : list pyval)
| VBinaryFile.                 (* the codec object itself *)

(** The [dtype] argument of [read_float]: the three callables the class
    passes. *)
Inductive dtype : Type :=
| float
| np_float32
| np_float64.

(** [x.__float__()] where it exists. *)
Definition as_float (v : pyval) : outcome spec_float :=
  match v with
  | VInt z => float_of_int z
  | VFloat x | VFloat32 x | VFloat64 x => Ok x
  | _ => Raise TypeError
  end.

(** [dtype(val)] *)
Definition call_dtype (d : dtype) (v : pyval) : outcome pyval :=
  match as_float v with
  | Ok x =>
      match d with
      | float => Ok (VFloat x)
      | np_float32 => Ok (VFloat32 (round_float 24 128 x))
      | np_float64 => Ok (VFloat64 x)
      end
  | Raise e => Raise e
  end.

(** [t[0]] on a tuple *)
Definition getitem0 (t : list pyval) : outcome pyval :=
  match t with
  | v :: _ => Ok v
  | [] => Raise IndexError
  end.

(** [hasattr(val, '__iter__')] *)
Definition has_iter (v : pyval) : bool :=
  match v with
  | VTuple _ | VList _ => true
  | _ => false
  end.

Definition elements (v : pyval) : list pyval :=
  match v with
  | VTuple l | VList l => l
  | _ => []
  end.

(** Python's truth value testing.  [BinaryFile] defines neither [__bool__]
    nor [__len__], so an instance is true. *)
Definition is_zero (x : spec_float) : bool :=
  match x with
  | S754_zero _ => true
  | _ => false
  end.

Definition truth (v : pyval) : bool :=
  match v with
  | VNone => false
  | VInt z => negb (z =? 0)
  | VFloat x | VFloat32 x | VFloat64 x => negb (is_zero x)
  | VTuple l | VList l => negb (Nat.eqb (length l) 0)
  | VBinaryFile => true
  end.

(** Sequencing of computations that only raise. *)
Definition and_then {A B} (r : outcome A) (k : A -> outcome B) : outcome B :=
  match r with
  | Ok a => k a
  | Raise e => Raise e
  end.

Fixpoint map_outcome {A B} (g : A -> outcome B) (l : list A) : outcome (list B) :=
  match l with
  | [] => Ok []
  | a :: r =>
      and_then (g a) (fun b =>
      and_then (map_outcome g r) (fun bs => Ok (b :: bs)))
  end.

(** ** The [struct] module, native mode *)

Local Open Scope nat_scope.

Record platform : Type := {
  big_endian : bool;
  sizeof_long : nat      (* sizeof(long): 8 on LP64, 4 on LLP64 and ILP32 *)
}.

Inductive code : Type := Cb | Ch | Ci | Cl | Cf | Cd.

Definition code_of_ascii (c : ascii) : option code :=
  match c with
  | "b"%char => Some Cb
  | "h"%char => Some Ch
  | "i"%char => Some Ci
  | "l"%char => Some Cl
  | "f"%char => Some Cf
  | "d"%char => Some Cd
  | _ => None
  end.

Definition digit_of (c : ascii) : option nat :=
  let n := nat_of_ascii c in
  if (48 <=? n) && (n <=? 57) then Some (n - 48) else None.

(** Py_ISSPACE *)
Definition is_space (c : ascii) : bool :=
  match c with
  | " "%char | "009"%char | "010"%char | "011"%char | "012"%char | "013"%char => true
  | _ => false
  end.

(** The scan of a format string: [num] is the repeat count read so far.  A
    count must be followed by a code; a character that is neither white space
    before an item, a digit, nor a code is a bad character. *)
Fixpoint parse_format (num : option nat) (s : string) : option (list (nat * code)) :=
  match s with
  | EmptyString =>
      match num with
      | None => Some []
      | Some _ => None
      end
  | String c s' =>
      match digit_of c, num with
      | Some d, None => parse_format (Some d) s'
      | Some d, Some n => parse_format (Some (10 * n + d)) s'
      | None, None =>
          if is_space c then parse_format None s'
          else
            match code_of_ascii c with
            | Some k => option_map (cons (1, k)) (parse_format None s')
            | None => None
            end
      | None, Some n =>
          match code_of_ascii c with
          | Some k => option_map (cons (n, k)) (parse_format None s')
          | None => None
          end
      end
  end.

(** ['{:d}'.format(N)] for a count. *)
Definition format_d (N : nat) : string := DecimalString.NilEmpty.string_of_uint (Nat.to_uint N).

Definition align_up (off a : nat) : nat :=
  match a with
  | O => off
  | _ => ((off + a - 1) / a) * a
  end.

Section Native.

Variable P : platform.

Definition size (c : code) : nat :=
  match c with
  | Cb => 1
  | Ch => 2
  | Ci => 4
  | Cl => sizeof_long P
  | Cf => 4
  | Cd => 8
  end.

(** Natural alignment: in native mode an item starts at a multiple of its
    size. *)
Definition alignment (c : code) : nat := size c.

Definition native_order (bs : list byte) : list byte :=
  if big_endian P then rev bs else bs.

Definition decode (c : code) (bs : list byte) : pyval :=
  let u := le_unsigned (native_order bs) in
  match c with
  | Cf => VFloat (float_of_bits 23 8 u)
  | Cd => VFloat (float_of_bits 52 11 u)
  | _ => VInt (to_signed (size c) u)
  end.

Definition encode (c : code) (v : pyval) : outcome (list byte) :=
  match c with
  | Cf | Cd =>
      match as_float v with
      | Raise _ => Raise StructError       (* required argument is not a float *)
      | Ok x =>
          match c with
          | Cf =>                          (* the C cast, to infinity on overflow *)
              Ok (native_order (le_bytes 4 (bits_of_float 23 8 (round_float 24 128 x))))
          | _ =>
              Ok (native_order (le_bytes 8 (bits_of_float 52 11 (round_float 53 1024 x))))
          end
      end
  | _ =>
      match v with
      | VInt z =>
          if in_range (size c) z then Ok (native_order (le_bytes (size c) z))
          else Raise StructError
      | _ => Raise StructError
      end
  end.

Fixpoint calcsize_from (off : nat) (items : list (nat * code)) : nat :=
  match items with
  | [] => off
  | (n, c) :: r => calcsize_from (align_up off (alignment c) + n * size c) r
  end.

Definition count_items (items : list (nat * code)) : nat :=
  fold_right (fun it acc => fst it + acc) 0 items.

Fixpoint decode_run (c : code) (n : nat) (bs : list byte) : list pyval :=
  match n with
  | O => []
  | S n' => decode c (firstn (size c) bs) :: decode_run c n' (skipn (size c) bs)
  end.

Fixpoint unpack_from (off : nat) (items : list (nat * code)) (buf : list byte) : list pyval :=
  match items with
  | [] => []
  | (n, c) :: r =>
      let o := align_up off (alignment c) in
      decode_run c n (skipn o buf) ++ unpack_from (o + n * size c) r buf
  end.

Fixpoint pack_from (off : nat) (items : list (nat * code)) (args : list pyval)
  : outcome (list byte) :=
  match items with
  | [] => Ok []
  | (n, c) :: r =>
      let o := align_up off (alignment c) in
      and_then (map_outcome (encode c) (firstn n args)) (fun bss =>
      and_then (pack_from (o + n * size c) r (skipn n args)) (fun rest =>
      Ok (repeat x00 (o - off) ++ concat bss ++ rest)))
  end.

(** [struct.unpack(fmt, buf)] *)
Definition struct_unpack (fmt : string) (buf : list byte) : outcome (list pyval) :=
  match parse_format None fmt with
  | None => Raise StructError                      (* bad char in struct format *)
  | Some items =>
      if length buf =? calcsize_from 0 items then Ok (unpack_from 0 items buf)
      else Raise StructError                       (* unpack requires a buffer of n bytes *)
  end.

(** [struct.pack(fmt, *args)] *)
Definition struct_pack (fmt : string) (args : list pyval) : outcome (list byte) :=
  match parse_format None fmt with
  | None => Raise StructError
  | Some items =>
      if length args =? count_items items then pack_from 0 items args
      else Raise StructError                       (* pack expected n items for packing *)
  end.

End Native.

(** ** class BinaryFile

    The object is identified with its handle [self.f]; [path] and [mode] are
    not used after construction. *)

Local Open Scope py_scope.
Local Open Scope string_scope.

(** The interpreter around a codec object: its handle and what has been
    printed so far (one entry per exception triple). *)
Record process : Type := mkprocess {
  handle : file;
  stdout : list exn
}.

Definition __enter__ : M pyval := ret VBinaryFile.

Definition __exit__ (exc : option exn) (w : process) : outcome pyval * process :=
  (* clean up *)
  match f_close (handle w) with
  | (Raise e, h) => (Raise e, {| handle := h; stdout := stdout w |})
  | (Ok _, h) =>
      (* handle exceptions *)
      let out := match exc with
                 | Some e => (stdout w ++ [e])%list
                 | None => stdout w
                 end in
      (Ok VBinaryFile, {| handle := h; stdout := out |})
  end.

(** [with BinaryFile(...) as f: body], as the language defines it: the body
    runs on what [__enter__] returned; when it raises, [__exit__] receives the
    exception and a true return value suppresses it, otherwise it is raised
    again; when it does not raise, [__exit__] is called with [None] and its
    return value is ignored.  The result is [Some a] when the body finished
    and [None] when it was cut short by a suppressed exception. *)
Definition with_statement {A} (body : M A) (w : process) : outcome (option A) * process :=
  match __enter__ (handle w) with
  | (Raise e, h) => (Raise e, {| handle := h; stdout := stdout w |})
  | (Ok _, h) =>
      match body h with
      | (Ok a, h') =>
          match __exit__ None {| handle := h'; stdout := stdout w |} with
          | (Ok _, w') => (Ok (Some a), w')
          | (Raise e, w') => (Raise e, w')
          end
      | (Raise e, h') =>
          match __exit__ (Some e) {| handle := h'; stdout := stdout w |} with
          | (Ok r, w') => if truth r then (Ok None, w') else (Raise e, w')
          | (Raise e', w') => (Raise e', w')
          end
      end
  end.

Definition close : M unit := f_close.

Definition read (N : nat) : M (list byte) := f_read N.

(** Text encodings of [read_char]. *)
Inductive encoding : Type := utf_8 | us_ascii | latin_1.

Definition decode_byte (enc : encoding) (b : byte) : outcome string :=
  match enc with
  | latin_1 => Ok (String (ascii_of_byte b) "")
  | _ =>
      if (Byte.to_N b <? 128)%N then Ok (String (ascii_of_byte b) "")
      else Raise UnicodeDecodeError
  end.

(** [bytes.decode(encoding)] on what [read(1)] returns, an empty buffer or a
    single byte.  (A longer buffer is decoded byte by byte, which is exact
    for the one-byte encodings and for UTF-8 on ASCII text.) *)
Fixpoint bytes_decode (enc : encoding) (bs : list byte) : outcome string :=
  match bs with
  | [] => Ok ""
  | b :: r =>
      and_then (decode_byte enc b) (fun c =>
      and_then (bytes_decode enc r) (fun s => Ok (c ++ s)))
  end.

Definition read_char (enc : encoding) : M string :=
  bs <- f_read 1 ;;
  lift (bytes_decode enc bs).

Definition newline : string := String "010"%char "".

Definition line_ended (b : string) : bool :=
  String.eqb b newline || String.eqb b "".

Definition inspect {A} (a : A) : {b : A | a = b} := exist _ a eq_refl.

(** What is left to do for the [while] loop before character [b] is tested:
    the bytes not yet read, and one more turn if [b] does not end the line. *)
Definition loop_measure (b : string) (h : file) : nat :=
  remaining h + (if line_ended b then 0 else 1).

(** The [while] loop of [readline], entered with the accumulated string [s]
    and the character [b] read last.  A turn that goes on has consumed a
    byte, which is why the loop ends. *)
Equations? readline_loop (enc : encoding) (s b : string) (h : file)
  : outcome string * file by wf (loop_measure b h) lt :=
readline_loop enc s b h with inspect (line_ended b) := {
  | exist _ true _ => (Ok (s ++ b), h)
  | exist _ false Hb with inspect (read_char enc h) := {
      | exist _ (Ok b', h') Hr => readline_loop enc (s ++ b) b' h'
      | exist _ (Raise e, h') _ => (Raise e, h') } }.
Proof.
  clear readline_loop. unfold loop_measure. rewrite Hb.
  unfold read_char, bind, f_read, lift, remaining in *.
  destruct (closed h); [discriminate|].
  destruct h as [c p cl]; simpl in *.
  destruct (skipn p c) as [|x r] eqn:Hs.
  - simpl in Hr. inversion Hr; subst; simpl. lia.
  - assert (p < length c).
    { destruct (Nat.lt_ge_cases p (length c)) as [Hlt|Hge]; [exact Hlt|].
      rewrite (skipn_all2 c Hge) in Hs. discriminate. }
    simpl in Hr.
    destruct (decode_byte enc x); simpl in Hr; [|discriminate].
    inversion Hr; subst; simpl.
    match goal with |- context [if ?t then _ else _] => destruct t end; lia.
Qed.

Definition readline (enc : encoding) : M string :=
  b <- read_char enc ;;
  readline_loop enc "" b.

Section Codec.

Variable P : platform.

(** [unpack]: a [struct.error] becomes an [IOError]. *)
Definition unpack (fmt : string) (buf : list byte) : outcome (list pyval) :=
  match struct_unpack P fmt buf with
  | Raise StructError => Raise IOError
  | r => r
  end.

(** integer reads *)

Definition read_int1 (N : nat) : M pyval :=
  if Nat.eqb N 1 then
    buf <- f_read 1 ;;
    t <- lift (unpack "b" buf) ;;
    lift (getitem0 t)
  else
    buf <- f_read (N * 1) ;;
    t <- lift (unpack "{:d}b" buf) ;;
    ret (VTuple (firstn N t)).

Definition read_int2 (N : nat) : M pyval :=
  if Nat.eqb N 1 then
    buf <- f_read 2 ;;
    t <- lift (unpack "h" buf) ;;
    lift (getitem0 t)
  else
    buf <- f_read (N * 2) ;;
    t <- lift (unpack (format_d N ++ "h") buf) ;;
    ret (VTuple (firstn N t)).

Definition read_int4 (N : nat) : M pyval :=
  if Nat.eqb N 1 then
    buf <- f_read 4 ;;
    t <- lift (unpack "i" buf) ;;
    lift (getitem0 t)
  else
    buf <- f_read (N * 4) ;;
    t <- lift (unpack (format_d N ++ "i") buf) ;;
    ret (VTuple (firstn N t)).

Definition read_int8 (N : nat) : M pyval :=
  if Nat.eqb N 1 then
    buf <- f_read 8 ;;
    t <- lift (unpack "l" buf) ;;
    lift (getitem0 t)
  else
    buf <- f_read (N * 8) ;;
    t <- lift (unpack (format_d N ++ "l") buf) ;;
    ret (VTuple (firstn N t)).

Definition read_int (N : nat) : M pyval := read_int4 N.

(** float reads *)

Definition read_float (N : nat) (d : dtype) : M pyval :=
  if Nat.eqb N 1 then
    buf <- f_read 4 ;;
    t <- lift (unpack "f" buf) ;;
    v <- lift (getitem0 t) ;;
    lift (call_dtype d v)
  else
    buf <- f_read (N * 4) ;;
    t <- lift (unpack (format_d N ++ "f") buf) ;;
    vs <- lift (map_outcome (call_dtype d) (firstn N t)) ;;
    ret (VList vs).

Definition read_double (N : nat) : M pyval :=
  if Nat.eqb N 1 then
    buf <- f_read 8 ;;
    t <- lift (unpack "d" buf) ;;
    lift (getitem0 t)
  else
    buf <- f_read (N * 8) ;;
    t <- lift (unpack (format_d N ++ "d") buf) ;;
    ret (VTuple (firstn N t)).

Definition read_real4 (N : nat) : M pyval := read_float N np_float32.

Definition read_real8 (N : nat) : M pyval := read_float N np_float64.

(** binary output *)

Definition write_type (val : pyval) (type : string) : M pyval :=
  if has_iter val then
    let N := length (elements val) in
    bs <- lift (struct_pack P (format_d N ++ type) (elements val)) ;;
    _ <- f_write bs ;;
    ret VNone
  else
    bs <- lift (struct_pack P type [val]) ;;
    _ <- f_write bs ;;
    ret VNone.

Definition write_int1 (val : pyval) : M pyval := write_type val "b".
Definition write_int2 (val : pyval) : M pyval := write_type val "h".
Definition write_int4 (val : pyval) : M pyval := write_type val "i".
Definition write_int8 (val : pyval) : M pyval := write_type val "l".
Definition write_float (val : pyval) : M pyval := write_type val "f".
Definition write_double (val : pyval) : M pyval := write_type val "d".

Definition write_int (val : pyval) : M pyval :=
  _ <- write_int4 val ;;
  ret VNone.


(** The typed scalar reads of the class, each with the width of its scalar. *)
Inductive typed_read : Type :=
| Rint1 | Rint2 | Rint4 | Rint8 | Rint
| Rfloat (d : dtype) | Rdouble | Rreal4 | Rreal8.

Definition run_read (r : typed_read) (N : nat) : M pyval :=
  match r with
  | Rint1 => read_int1 N
  | Rint2 => read_int2 N
  | Rint4 => read_int4 N
  | Rint8 => read_int8 N
  | Rint => read_int N
  | Rfloat d => read_float N d
  | Rdouble => read_double N
  | Rreal4 => read_real4 N
  | Rreal8 => read_real8 N
  end.

Definition width (r : typed_read) : nat :=
  match r with
  | Rint1 => 1
  | Rint2 => 2
  | Rint4 | Rint | Rfloat _ | Rreal4 | Rreal8 => 4
  | Rint8 | Rdouble => 8
  end.

(** What a typed read is to return for a buffer [buf] of exactly [N]
    scalars: the scalars decoded in order, each passed through the method's
    [dtype] if it has one; bare for [N = 1], otherwise a tuple, or a list
    for the methods that build one. *)
Definition code_of_read (r : typed_read) : code :=
  match r with
  | Rint1 => Cb
  | Rint2 => Ch
  | Rint4 | Rint => Ci
  | Rint8 => Cl
  | Rfloat _ | Rreal4 | Rreal8 => Cf
  | Rdouble => Cd
  end.

Definition convert (r : typed_read) (v : pyval) : outcome pyval :=
  match r with
  | Rfloat d => call_dtype d v
  | Rreal4 => call_dtype np_float32 v
  | Rreal8 => call_dtype np_float64 v
  | _ => Ok v
  end.

Definition sequence_of (r : typed_read) (l : list pyval) : pyval :=
  match r with
  | Rfloat _ | Rreal4 | Rreal8 => VList l
  | _ => VTuple l
  end.

Definition decoded (r : typed_read) (N : nat) (buf : list byte) : outcome pyval :=
  if Nat.eqb N 1 then convert r (decode P (code_of_read r) buf)
  else
    and_then (map_outcome (convert r) (decode_run P (code_of_read r) N buf))
             (fun l => Ok (sequence_of r l)).

(** The integer widths and the pair of methods of each. *)
Inductive int_width : Type := W1 | W2 | W4 | W8.

Definition bytes_of_width (w : int_width) : nat :=
  match w with
  | W1 => 1
  | W2 => 2
  | W4 => 4
  | W8 => 8
  end.

Definition write_intW (w : int_width) (val : pyval) : M pyval :=
  match w with
  | W1 => write_int1 val
  | W2 => write_int2 val
  | W4 => write_int4 val
  | W8 => write_int8 val
  end.

Definition read_intW (w : int_width) (N : nat) : M pyval :=
  match w with
  | W1 => read_int1 N
  | W2 => read_int2 N
  | W4 => read_int4 N
  | W8 => read_int8 N
  end.

Definition read_of_width (w : int_width) : typed_read :=
  match w with
  | W1 => Rint1
  | W2 => Rint2
  | W4 => Rint4
  | W8 => Rint8
  end.

End Codec.

(** Linux on x86-64: little endian, LP64. *)
Definition x86_64 : platform := {| big_endian := false; sizeof_long := 8 |}.

(** The value to hand to a write for the integers [zs]: a bare scalar for
    one, a list for several; and what a read of as many gives back. *)
Definition written (zs : list Z) : pyval :=
  match zs with
  | [z] => VInt z
  | _ => VList (map VInt zs)
  end.

Definition read_back (zs : list Z) : pyval :=
  match zs with
  | [z] => VInt z
  | _ => VTuple (map VInt zs)
  end.

(** The bytes of a string of ASCII characters. *)
Fixpoint bytes_of_string (s : string) : list byte :=
  match s with
  | EmptyString => []
  | String c r => byte_of_ascii c :: bytes_of_string r
  end.

(** The integer codes. *)
Definition int_code (k : code) : bool :=
  match k with
  | Cf | Cd => false
  | _ => true
  end.

(** A bare number, and a sequence of [n] values. *)
Definition is_scalar (v : pyval) : bool :=
  match v with
  | VInt _ | VFloat _ | VFloat32 _ | VFloat64 _ => true
  | _ => false
  end.

Definition is_sequence_of (n : nat) (v : pyval) : bool :=
  match v with
  | VTuple l | VList l => Nat.eqb (length l) n
  | _ => false
  end.

(** A line of ASCII characters with no newline in it. *)
Fixpoint plain_line (line : string) : bool :=
  match line with
  | EmptyString => true
  | String c r =>
      (N_of_ascii c <? 128)%N && negb (Ascii.eqb c "010"%char) && plain_line r
  end.

(** What ends a line in the bytes behind it: a newline byte or end of file. *)
Definition line_end (tail : list byte) : string :=
  match tail with
  | [] => ""
  | _ => newline
  end.

(** ** The rest of the class *)

(** [str.strip(chars)]: the characters of [chars] are dropped from both
    ends. *)
Fixpoint mem_char (c : ascii) (chars : string) : bool :=
  match chars with
  | EmptyString => false
  | String d r => Ascii.eqb c d || mem_char c r
  end.

Fixpoint lstrip (chars s : string) : string :=
  match s with
  | EmptyString => EmptyString
  | String c r => if mem_char c chars then lstrip chars r else s
  end.

Fixpoint rstrip (chars s : string) : string :=
  match s with
  | EmptyString => EmptyString
  | String c r =>
      match rstrip chars r with
      | EmptyString =>
          if mem_char c chars then EmptyString else String c EmptyString
      | r' => String c r'
      end
  end.

Definition strip (chars s : string) : string := lstrip chars (rstrip chars s).

(** [__init__], as far as the mode goes: what it keeps in [self.mode], and
    the mode it hands to [open]. *)
Definition init_mode (mode : string) : string := strip "b" mode.

Definition open_mode (mode : string) : string := init_mode mode ++ "b".

(** The argument of the raw [write]: text or bytes.  (The characters of a
    [string] are the code points below 256.) *)
Inductive text_or_bytes : Type :=
| Text (s : string)
| Bytes (bs : list byte).

(** [str.encode] fails with an exception of its own. *)
Inductive encode_failure : Type := UnicodeEncodeError.

Definition encode_char (enc : encoding) (c : ascii) : encode_failure + list byte :=
  let n := N_of_ascii c in
  match enc with
  | latin_1 => inr [byte_of_ascii c]
  | us_ascii =>
      if (n <? 128)%N then inr [byte_of_ascii c] else inl UnicodeEncodeError
  | utf_8 =>
      if (n <? 128)%N then inr [byte_of_ascii c]
      else inr [byte_of_Z (192 + Z.of_N n / 64); byte_of_Z (128 + Z.of_N n mod 64)]
  end.

Fixpoint str_encode (enc : encoding) (s : string) : encode_failure + list byte :=
  match s with
  | EmptyString => inr []
  | String c r =>
      match encode_char enc c, str_encode enc r with
      | inr b, inr bs => inr (b ++ bs)%list
      | inl e, _ => inl e
      | _, inl e => inl e
      end
  end.

(** [write(val, encoding)] *)
Definition write (val : text_or_bytes) (enc : encoding) (h : file)
  : (encode_failure + outcome pyval) * file :=
  match val with
  | Text s =>
      match str_encode enc s with
      | inl e => (inl e, h)
      | inr bs => let (r, h') := (_ <- f_write bs ;; ret VNone) h in (inr r, h')
      end
  | Bytes bs => let (r, h') := (_ <- f_write bs ;; ret VNone) h in (inr r, h')
  end.

(** The values a read returned, in order: the members of a sequence, or the
    one bare value. *)
Definition values (v : pyval) : list pyval :=
  match v with
  | VTuple l | VList l => l
  | _ => [v]
  end.

(** The signed integer a run of bytes stands for on the platform. *)
Definition int_of_bytes (P : platform) (bs : list byte) : Z :=
  to_signed (length bs) (le_unsigned (native_order P bs)).

(** [n] consecutive runs of [w] bytes. *)
Fixpoint chunks (w n : nat) (bs : list byte) : list (list byte) :=
  match n with
  | O => []
  | S n' => firstn w bs :: chunks w n' (skipn w bs)
  end.

(** The value to hand to a float write for the floats [xs]: bare for one, a
    list for several; and the type [dtype] puts a float in. *)
Definition written_floats (xs : list spec_float) : pyval :=
  match xs with
  | [x] => VFloat x
  | _ => VList (map VFloat xs)
  end.

Definition boxed (d : dtype) (x : spec_float) : pyval :=
  match d with
  | float => VFloat x
  | np_float32 => VFloat32 x
  | np_float64 => VFloat64 x
  end.

(** Windows on x86-64: little endian, LLP64. *)
Definition windows_x64 : platform := {| big_endian := false; sizeof_long := 4 |}.


(** Lines put end to end, each closed by a newline; and [n] calls of
    [readline] in a row, as a caller makes them who reads a file line by
    line: the lines returned, or the exception of the first call that
    raises. *)
Fixpoint lines_text (ls : list string) : string :=
  match ls with
  | [] => ""
  | l :: r => l ++ newline ++ lines_text r
  end.

Fixpoint readlines (enc : encoding) (n : nat) : M (list string) :=
  match n with
  | O => ret []
  | S n' =>
      l <- readline enc ;;
      ls <- readlines enc n' ;;
      ret (l :: ls)
  end.

(** The same platform with the other byte order. *)
Definition swapped (P : platform) : platform :=
  {| big_endian := negb (big_endian P); sizeof_long := sizeof_long P |}.

(** * Properties *)

(** ** The handle *)

Lemma f_read_open (n : nat) (h : file) :
  closed h = false ->
  f_read n h = (Ok (firstn n (skipn (pos h) (content h))),
                set_pos h (pos h + Nat.min n (remaining h))).
Proof.
  intros Hc. unfold f_read, remaining. rewrite Hc.
  now rewrite length_firstn, length_skipn.
Qed.

Lemma f_read_length (n : nat) (h : file) (buf : list byte) (h' : file) :
  f_read n h = (Ok buf, h') -> length buf = Nat.min n (remaining h).
Proof.
  unfold f_read, remaining. destruct (closed h); [discriminate|].
  intros E. inversion E; subst. now rewrite length_firstn, length_skipn.
Qed.

Lemma f_write_open (bs : list byte) (h : file) :
  closed h = false ->
  fst (f_write bs h) = Ok (length bs)
  /\ closed (snd (f_write bs h)) = false
  /\ pos (snd (f_write bs h)) = pos h + length bs.
Proof.
  intros Hc. unfold f_write. rewrite Hc.
  destruct bs; cbn [fst snd closed pos length]; repeat split; auto.
Qed.

Lemma f_write_inside (bs : list byte) (h : file) :
  closed h = false ->
  pos h <= length (content h) ->
  f_write bs h
  = (Ok (length bs),
     mkfile (firstn (pos h) (content h) ++ bs ++ skipn (pos h + length bs) (content h))
            (pos h + length bs) false).
Proof.
  intros Hc Hp. unfold f_write. rewrite Hc.
  destruct bs as [|b bs].
  - cbn [length app]. rewrite Nat.add_0_r, firstn_skipn.
    destruct h; cbn in *. now subst.
  - replace (pos h - length (content h)) with 0 by lia.
    cbn [repeat]. now rewrite app_nil_r.
Qed.

(** ** Format strings *)

Lemma to_uint_nonnil (N : nat) : Nat.to_uint N <> Decimal.Nil.
Proof.
  rewrite <- (DecimalNat.Unsigned.of_to N) at 1.
  rewrite DecimalNat.Unsigned.to_of.
  apply DecimalFacts.unorm_nonnil.
Qed.

Lemma parse_format_more_digits (c : ascii) (k acc : nat) (s : string) :
  digit_of c = Some k ->
  parse_format (Some acc) (String c s) = parse_format (Some (10 * acc + k)) s.
Proof. intros E. cbn [parse_format]. now rewrite E. Qed.

Lemma parse_format_first_digit (c : ascii) (k : nat) (s : string) :
  digit_of c = Some k ->
  parse_format None (String c s) = parse_format (Some k) s.
Proof. intros E. cbn [parse_format]. now rewrite E. Qed.

Lemma parse_format_digits (d : Decimal.uint) :
  forall (acc : nat) (rest : string),
    parse_format (Some acc) (DecimalString.NilEmpty.string_of_uint d ++ rest)
    = parse_format (Some (Nat.of_uint_acc d acc)) rest.
Proof.
  induction d; intros acc rest;
    cbn [DecimalString.NilEmpty.string_of_uint Nat.of_uint_acc append];
    [ reflexivity | .. ];
    match goal with
    | |- parse_format _ (String ?c _) = _ =>
        let k := eval vm_compute in (nat_of_ascii c - 48) in
        rewrite (parse_format_more_digits c k) by reflexivity
    end;
    rewrite IHd, Nat.tail_mul_spec; do 3 f_equal; lia.
Qed.

Lemma code_is_no_digit (c : ascii) (k : code) :
  code_of_ascii c = Some k -> digit_of c = None.
Proof.
  destruct c as [[] [] [] [] [] [] [] []]; cbn; try discriminate; reflexivity.
Qed.

Lemma parse_format_code (c : ascii) (k : code) (n : nat) (rest : string) :
  code_of_ascii c = Some k ->
  parse_format (Some n) (String c rest)
  = option_map (cons (n, k)) (parse_format None rest).
Proof.
  intros E. cbn [parse_format].
  now rewrite (code_is_no_digit c k E), E.
Qed.

(** A count rendered by [format] and followed by a code is read back as that
    count of that code. *)
Lemma parse_format_count (N : nat) (c : ascii) (k : code) (rest : string) :
  code_of_ascii c = Some k ->
  parse_format None (format_d N ++ String c rest)
  = option_map (cons (N, k)) (parse_format None rest).
Proof.
  intros E. unfold format_d.
  pose proof (to_uint_nonnil N) as Hn.
  pose proof (DecimalNat.Unsigned.of_to N) as Hof.
  unfold Nat.of_uint in Hof.
  destruct (Nat.to_uint N) as [|d|d|d|d|d|d|d|d|d|d]; [congruence|..];
    cbn [DecimalString.NilEmpty.string_of_uint append];
    cbn [Nat.of_uint_acc] in Hof;
    match goal with
    | |- parse_format _ (String ?a _) = _ =>
        let j := eval vm_compute in (nat_of_ascii a - 48) in
        rewrite (parse_format_first_digit a j) by reflexivity
    end;
    rewrite parse_format_digits, (parse_format_code c k) by exact E;
    change (Nat.tail_mul 10 0) with 0 in Hof; now rewrite Hof.
Qed.

Lemma align_up_0 (a : nat) : align_up 0 a = 0.
Proof.
  destruct a as [|a]; [reflexivity|].
  unfold align_up. replace (0 + S a - 1) with a by lia.
  now rewrite Nat.div_small by lia.
Qed.

Lemma decode_run_length (P : platform) (k : code) (n : nat) :
  forall bs, length (decode_run P k n bs) = n.
Proof. induction n; intros bs; cbn; [reflexivity|now rewrite IHn]. Qed.

(** [struct.unpack] on a run of [N] scalars of one code. *)
Lemma struct_unpack_run (P : platform) (N : nat) (c : ascii) (k : code) (buf : list byte) :
  code_of_ascii c = Some k ->
  struct_unpack P (format_d N ++ String c "") buf
  = if Nat.eqb (length buf) (N * size P k) then Ok (decode_run P k N buf)
    else Raise StructError.
Proof.
  intros E. unfold struct_unpack.
  rewrite (parse_format_count N c k "" E). cbn [parse_format option_map].
  cbn [calcsize_from unpack_from]. unfold alignment.
  now rewrite align_up_0, skipn_0, app_nil_r.
Qed.

(** [struct.unpack] on a format that is a single code. *)
Lemma struct_unpack_one (P : platform) (c : ascii) (k : code) (buf : list byte) :
  code_of_ascii c = Some k ->
  struct_unpack P (String c "") buf
  = if Nat.eqb (length buf) (size P k) then Ok [decode P k buf]
    else Raise StructError.
Proof.
  intros E. unfold struct_unpack. cbn [parse_format].
  rewrite (code_is_no_digit c k E), E.
  replace (is_space c) with false
    by (destruct c as [[] [] [] [] [] [] [] []]; cbn in *; congruence).
  cbn [parse_format option_map calcsize_from unpack_from decode_run].
  unfold alignment. rewrite align_up_0, skipn_0, Nat.mul_1_l, Nat.add_0_l.
  destruct (Nat.eqb_spec (length buf) (size P k)) as [Hl|]; [|reflexivity].
  rewrite <- Hl, firstn_all. reflexivity.
Qed.

(** ** Typed reads: one raw read, then a computation on the buffer *)

Ltac unfold_reads :=
  unfold run_read, read_real4, read_real8, read_int,
    read_int1, read_int2, read_int4, read_int8, read_float, read_double.

(** Splits on every outcome a computation branches on. *)
Ltac split_outcomes :=
  repeat match goal with
    | |- context [match ?x with Ok _ => _ | Raise _ => _ end] => destruct x
    | |- context [match ?x with (_, _) => _ end] => destruct x
    end.

(** A typed read takes its bytes in one raw read of [width * N] bytes and
    does not touch the handle afterwards: its outcome is the outcome on a
    file that holds just those bytes, and the position moves by the bytes the
    raw read delivered. *)
Lemma run_read_one_raw_read (P : platform) (r : typed_read) (N : nat) (h : file) :
  closed h = false ->
  run_read P r N h
  = (fst (run_read P r N
            (mkfile (firstn (width r * N) (skipn (pos h) (content h))) 0 false)),
     set_pos h (pos h + Nat.min (width r * N) (remaining h))).
Proof.
  intros Hc.
  destruct (Nat.eqb_spec N 1) as [->|HN].
  - destruct r; unfold_reads; cbn [Nat.eqb width Nat.mul Nat.add];
      unfold bind; rewrite !f_read_open by (exact Hc || reflexivity);
      cbn [pos content closed]; rewrite skipn_0, firstn_firstn, Nat.min_id;
      unfold lift, ret; split_outcomes; reflexivity.
  - apply Nat.eqb_neq in HN.
    destruct r; unfold_reads; rewrite HN; cbn [width];
      rewrite (Nat.mul_comm _ N);
      unfold bind; rewrite !f_read_open by (exact Hc || reflexivity);
      cbn [pos content closed]; rewrite skipn_0, firstn_firstn, Nat.min_id;
      unfold lift, ret; split_outcomes; reflexivity.
Qed.

(** ** [unpack]: one error kind *)

Lemma unpack_never_struct_error (P : platform) (fmt : string) (buf : list byte) :
  unpack P fmt buf <> Raise StructError.
Proof.
  unfold unpack. destruct (struct_unpack P fmt buf) as [t|[]]; discriminate.
Qed.

Lemma unpack_length_mismatch (P : platform) (fmt : string)
      (items : list (nat * code)) (buf : list byte) :
  parse_format None fmt = Some items ->
  length buf <> calcsize_from P 0 items ->
  unpack P fmt buf = Raise IOError.
Proof.
  intros Hp Hl. unfold unpack, struct_unpack. rewrite Hp.
  apply Nat.eqb_neq in Hl. now rewrite Hl.
Qed.

Lemma unpack_one_short (P : platform) (c : ascii) (k : code) (buf : list byte) :
  code_of_ascii c = Some k ->
  length buf <> size P k ->
  unpack P (String c "") buf = Raise IOError.
Proof.
  intros E Hl. unfold unpack. rewrite (struct_unpack_one P c k buf E).
  apply Nat.eqb_neq in Hl. now rewrite Hl.
Qed.

Lemma unpack_run_short (P : platform) (N : nat) (c : ascii) (k : code) (buf : list byte) :
  code_of_ascii c = Some k ->
  length buf <> N * size P k ->
  unpack P (format_d N ++ String c "") buf = Raise IOError.
Proof.
  intros E Hl. unfold unpack. rewrite (struct_unpack_run P N c k buf E).
  apply Nat.eqb_neq in Hl. now rewrite Hl.
Qed.

(** The format of [read_int1] for several values is the template itself, which
    [struct] rejects at its first character. *)
Lemma unpack_unformatted_template (P : platform) (buf : list byte) :
  unpack P "{:d}b" buf = Raise IOError.
Proof. reflexivity. Qed.

Lemma read_int1_unformatted (P : platform) (N : nat) (h : file) :
  N <> 1 -> closed h = false -> fst (read_int1 P N h) = Raise IOError.
Proof.
  intros HN Hc. unfold read_int1. apply Nat.eqb_neq in HN. rewrite HN.
  unfold bind. rewrite f_read_open by exact Hc.
  unfold lift at 1. now rewrite unpack_unformatted_template.
Qed.

Lemma typed_read_eq_Rint8 (r : typed_read) : r = Rint8 \/ r <> Rint8.
Proof. destruct r; (now left) || (right; discriminate). Qed.

(** A typed read on a file that holds fewer bytes than it asks for. *)
Lemma run_read_short_buffer (P : platform) (r : typed_read) (N : nat) (buf : list byte) :
  (r = Rint8 -> sizeof_long P = 8) ->
  length buf < width r * N ->
  fst (run_read P r N (mkfile buf 0 false)) = Raise IOError.
Proof.
  intros HP Hl.
  destruct (Nat.eqb_spec N 1) as [->|HN].
  - destruct r; try specialize (HP eq_refl);
      unfold_reads; cbn [Nat.eqb width] in *;
      unfold bind; rewrite f_read_open by reflexivity;
      cbn [pos content closed]; rewrite skipn_0, firstn_all2 by lia;
      unfold lift at 1;
      match goal with
      | |- context [unpack P (String ?c "") buf] =>
          let k := eval cbv in (code_of_ascii c) in
          match k with
          | Some ?k' =>
              rewrite (unpack_one_short P c k' buf)
                by (reflexivity || (cbn [size]; lia))
          end
      end; reflexivity.
  - apply Nat.eqb_neq in HN.
    destruct r; try specialize (HP eq_refl);
      unfold_reads; rewrite HN; cbn [width] in *;
      unfold bind; rewrite f_read_open by reflexivity;
      cbn [pos content closed]; rewrite skipn_0, firstn_all2 by lia;
      unfold lift at 1;
      try (rewrite unpack_unformatted_template; reflexivity);
      match goal with
      | |- context [unpack P (format_d N ++ String ?c "") buf] =>
          let k := eval cbv in (code_of_ascii c) in
          match k with
          | Some ?k' =>
              rewrite (unpack_run_short P N c k' buf)
                by (reflexivity || (cbn [size]; lia))
          end
      end; reflexivity.
Qed.

(** C10: a typed read that comes up short is not undone.  With [k] bytes
    left, fewer than [width * N], the call leaves the handle [k] bytes
    further, at end of file, with nothing else changed; so the position has
    moved whenever [k > 0]; and the call has raised [IOError] (for
    [read_int8], where [long] is the 8 bytes the method reads). *)
Theorem short_read_leaves_position_advanced
        (P : platform) (r : typed_read) (N : nat) (h : file) :
  closed h = false ->
  remaining h < width r * N ->
  snd (run_read P r N h) = set_pos h (pos h + remaining h)
  /\ (0 < remaining h -> snd (run_read P r N h) <> h)
  /\ ((r = Rint8 -> sizeof_long P = 8) -> fst (run_read P r N h) = Raise IOError).
Proof.
  intros Hc Hrem.
  rewrite run_read_one_raw_read by exact Hc. cbn [fst snd].
  rewrite Nat.min_r by lia.
  split; [reflexivity|split].
  - intros Hk E. apply (f_equal pos) in E. cbn in E. lia.
  - intros HP. apply run_read_short_buffer; [exact HP|].
    rewrite length_firstn, length_skipn. unfold remaining in Hrem. lia.
Qed.

Lemma short_read_leaves_position_advanced_witness :
  let h := mkfile [x01; x02; x03; x04; x05; x06] 4 false in
  snd (run_read x86_64 Rint4 1 h) = mkfile [x01; x02; x03; x04; x05; x06] 6 false
  /\ fst (run_read x86_64 Rint4 1 h) = Raise IOError.
Proof.
  split.
  - apply (short_read_leaves_position_advanced x86_64 Rint4 1
             (mkfile [x01; x02; x03; x04; x05; x06] 4 false));
      [reflexivity | cbn; lia].
  - apply (short_read_leaves_position_advanced x86_64 Rint4 1
             (mkfile [x01; x02; x03; x04; x05; x06] 4 false));
      [reflexivity | cbn; lia | reflexivity].
Defined.

(** ** The stream position *)

Lemma read_char_one_raw_read (enc : encoding) (h : file) :
  closed h = false ->
  read_char enc h
  = (bytes_decode enc (firstn 1 (skipn (pos h) (content h))),
     set_pos h (pos h + Nat.min 1 (remaining h))).
Proof.
  intros Hc. unfold read_char, bind. now rewrite f_read_open by exact Hc.
Qed.

(** C9: with at least [width * N] bytes left, a typed read moves the position
    by exactly [width * N] and changes nothing else on the handle, whether
    it returns or raises; its outcome is a function of those bytes alone (it
    is the outcome on a file that ends after them); [read_char] moves the
    position by exactly one byte. *)
Theorem typed_read_advances_by_width_times_count
        (P : platform) (r : typed_read) (N : nat) (h : file) :
  closed h = false ->
  width r * N <= remaining h ->
  snd (run_read P r N h) = set_pos h (pos h + width r * N)
  /\ fst (run_read P r N h)
     = fst (run_read P r N
              (mkfile (firstn (width r * N) (skipn (pos h) (content h))) 0 false))
  /\ (forall enc, 1 <= remaining h ->
        snd (read_char enc h) = set_pos h (pos h + 1)).
Proof.
  intros Hc Hrem. rewrite run_read_one_raw_read by exact Hc. cbn [fst snd].
  split; [|split].
  - now rewrite Nat.min_l by exact Hrem.
  - reflexivity.
  - intros enc H1. rewrite read_char_one_raw_read by exact Hc. cbn [snd].
    now rewrite Nat.min_l by exact H1.
Qed.

Lemma typed_read_advances_by_width_times_count_witness :
  let h := mkfile [x00; x01; x00; xff; xff; x41; x07] 1 false in
  snd (run_read x86_64 Rint2 2 h) = set_pos h 5
  /\ snd (run_read x86_64 Rint1 3 h) = set_pos h 4
  /\ snd (read_char utf_8 h) = set_pos h 2.
Proof.
  split; [|split].
  - apply (typed_read_advances_by_width_times_count x86_64 Rint2 2);
      [reflexivity | cbn; lia].
  - apply (typed_read_advances_by_width_times_count x86_64 Rint1 3);
      [reflexivity | cbn; lia].
  - apply (typed_read_advances_by_width_times_count x86_64 Rint2 2
             (mkfile [x00; x01; x00; xff; xff; x41; x07] 1 false));
      [reflexivity | cbn; lia | cbn; lia].
Defined.

(** ** The plain-integer aliases *)

Lemma write_type_returns_None (P : platform) (val : pyval) (type : string)
      (h h' : file) (v : pyval) :
  write_type P val type h = (Ok v, h') -> v = VNone.
Proof.
  unfold write_type, bind, lift, ret.
  destruct (has_iter val);
    repeat match goal with
      | |- context [match ?x with Ok _ => _ | Raise _ => _ end] => destruct x
      | |- context [f_write ?b ?s] => destruct (f_write b s) as [[?|?] ?]
      end; intros E; inversion E; reflexivity.
Qed.

(** C5: [read_int] is [read_int4] and [write_int] is [write_int4]: the same
    outcome and the same handle afterwards, on every handle. *)
Theorem read_int_write_int_are_the_int4_methods (P : platform) :
  (forall N h, read_int P N h = read_int4 P N h)
  /\ (forall val h, write_int P val h = write_int4 P val h).
Proof.
  split; [reflexivity|].
  intros val h. unfold write_int, bind, ret.
  destruct (write_int4 P val h) as [[v|e] h'] eqn:E; [|reflexivity].
  now rewrite (write_type_returns_None P val "i" h h' v E).
Qed.

(** ** Scoped acquisition *)

Lemma __exit___closes (exc : option exn) (w : process) :
  __exit__ exc w
  = (Ok VBinaryFile,
     {| handle := mkfile (content (handle w)) (pos (handle w)) true;
        stdout := match exc with
                  | Some e => (stdout w ++ [e])%list
                  | None => stdout w
                  end |}).
Proof. reflexivity. Qed.

(** C1 as the code has it: leaving the scope always closes the handle; an
    exception raised in the scope is printed and then suppressed, because
    [__exit__] returns the codec object, which is true: the [with] statement
    ends normally and nothing reaches the caller. *)
Theorem with_statement_closes_and_suppresses
        (A : Type) (body : M A) (w : process) :
  closed (handle (snd (with_statement body w))) = true
  /\ (forall e, fst (body (handle w)) = Raise e ->
        fst (with_statement body w) = Ok None
        /\ stdout (snd (with_statement body w)) = (stdout w ++ [e])%list)
  /\ (forall a, fst (body (handle w)) = Ok a ->
        fst (with_statement body w) = Ok (Some a)
        /\ stdout (snd (with_statement body w)) = stdout w).
Proof.
  unfold with_statement, __enter__, ret.
  destruct (body (handle w)) as [[a|e] h'] eqn:E; rewrite __exit___closes;
    cbn [truth fst snd handle stdout closed];
    (split; [reflexivity|split]); intros x Hx; inversion Hx; subst; auto.
Qed.

(** C1 as stated fails: a read past end of file raises [IOError] in the
    scope, and the [with] statement does not raise it again. *)
Lemma exception_in_scope_does_not_propagate :
  let w := {| handle := mkfile [] 0 false; stdout := [] |} in
  fst (read_int4 x86_64 1 (handle w)) = Raise IOError
  /\ fst (with_statement (read_int4 x86_64 1) w) <> Raise IOError
  /\ with_statement (read_int4 x86_64 1) w
     = (Ok None, {| handle := mkfile [] 0 true; stdout := [IOError] |}).
Proof. cbv zeta. split; [reflexivity|split; [discriminate|reflexivity]]. Qed.

(** ** [read_int1] with a count *)

(** C2 fails on the code: for every count other than 1, on every open
    handle, [read_int1] reads its [N] bytes and then raises [IOError],
    because the format it hands to [unpack] was never formatted. *)
Theorem read_int1_count_always_raises (P : platform) (N : nat) (h : file) :
  N <> 1 ->
  closed h = false ->
  read_int1 P N h = (Raise IOError, set_pos h (pos h + Nat.min N (remaining h))).
Proof.
  intros HN Hc. unfold read_int1. apply Nat.eqb_neq in HN. rewrite HN.
  unfold bind. rewrite f_read_open by exact Hc.
  unfold lift at 1. rewrite unpack_unformatted_template.
  now rewrite Nat.mul_1_r.
Qed.

Lemma read_int1_count_always_raises_witness :
  read_int1 x86_64 2 (mkfile [x01; x02] 0 false)
  = (Raise IOError, mkfile [x01; x02] 2 false)
  /\ read_int2 x86_64 2 (mkfile [x01; x00; x02; x00] 0 false)
     = (Ok (VTuple [VInt 1; VInt 2]), mkfile [x01; x00; x02; x00] 4 false).
Proof.
  split.
  - apply (read_int1_count_always_raises x86_64 2 (mkfile [x01; x02] 0 false));
      [discriminate | reflexivity].
  - reflexivity.
Defined.

(** ** [readline] *)

Lemma readline_loop_step (enc : encoding) (s b : string) (h : file) :
  readline_loop enc s b h
  = if line_ended b then (Ok (s ++ b), h)
    else match read_char enc h with
         | (Ok b', h') => readline_loop enc (s ++ b) b' h'
         | (Raise e, h') => (Raise e, h')
         end.
Proof.
  funelim (readline_loop enc s b h);
    try match goal with H : line_ended _ = _ |- _ => rewrite H end;
    try match goal with H : read_char _ _ = _ |- _ => rewrite H end;
    reflexivity.
Qed.

Lemma skipn_length_app {A} (l r : list A) : skipn (length l) (l ++ r) = r.
Proof. induction l; cbn; [reflexivity|exact IHl]. Qed.

Lemma append_empty_r (s : string) : s ++ "" = s.
Proof. induction s; cbn; [reflexivity|now rewrite IHs]. Qed.

Lemma append_assoc (a b c : string) : (a ++ b) ++ c = a ++ b ++ c.
Proof. induction a; cbn; [reflexivity|now rewrite IHa]. Qed.

Lemma decode_plain_byte (enc : encoding) (c : ascii) :
  (N_of_ascii c <? 128)%N = true ->
  decode_byte enc (byte_of_ascii c) = Ok (String c "").
Proof.
  intros Hc. unfold decode_byte.
  assert (E : Byte.to_N (byte_of_ascii c) = N_of_ascii c).
  { apply Byte.to_of_N. symmetry. apply byte_of_ascii_via_N. }
  rewrite E, Hc, ascii_of_byte_of_ascii. now destruct enc.
Qed.

Lemma read_char_after_prefix (enc : encoding) (pre rest : list byte) :
  read_char enc (mkfile (pre ++ rest) (length pre) false)
  = (bytes_decode enc (firstn 1 rest),
     mkfile (pre ++ rest) (length pre + Nat.min 1 (length rest)) false).
Proof.
  rewrite read_char_one_raw_read by reflexivity.
  unfold remaining, set_pos. cbn [pos content closed].
  rewrite skipn_length_app, length_app.
  now replace (length pre + length rest - length pre) with (length rest) by lia.
Qed.

(** One call of [read_char] followed by the loop, on a handle that stands
    before a plain line. *)
Lemma read_line_from (enc : encoding) (tail : list byte) :
  (tail = [] \/ exists rest, tail = x0a :: rest) ->
  forall (line : string) (pre : list byte) (s : string),
    plain_line line = true ->
    bind (read_char enc) (readline_loop enc s)
         (mkfile (pre ++ bytes_of_string line ++ tail) (length pre) false)
    = (Ok (s ++ line ++ line_end tail),
       mkfile (pre ++ bytes_of_string line ++ tail)
              (length pre + String.length (line ++ line_end tail)) false).
Proof.
  intros Htail. induction line as [|c r IH]; intros pre s Hplain.
  - unfold bind. rewrite read_char_after_prefix.
    cbn [bytes_of_string app].
    destruct Htail as [->|[rest ->]].
    + cbn [firstn bytes_decode length Nat.min]. rewrite readline_loop_step.
      reflexivity.
    + cbn [firstn bytes_decode and_then length Nat.min].
      replace (decode_byte enc x0a) with (Ok newline)
        by (destruct enc; reflexivity).
      cbn [and_then append]. rewrite readline_loop_step. reflexivity.
  - cbn [plain_line] in Hplain.
    apply andb_prop in Hplain as [Hc Hr]. apply andb_prop in Hc as [Hc Hnl].
    unfold bind. rewrite read_char_after_prefix.
    cbn [bytes_of_string app firstn bytes_decode and_then length Nat.min].
    rewrite (decode_plain_byte enc c Hc). cbn [and_then append].
    rewrite readline_loop_step.
    assert (Hgo : line_ended (String c "") = false).
    { unfold line_ended, newline. cbn [String.eqb].
      apply negb_true_iff in Hnl. rewrite Hnl. reflexivity. }
    rewrite Hgo.
    specialize (IH (pre ++ [byte_of_ascii c])%list (s ++ String c "") Hr).
    unfold bind in IH. rewrite <- app_assoc in IH. cbn [app] in IH.
    rewrite length_app in IH. cbn [length] in IH.
    rewrite IH. rewrite append_assoc. cbn [append String.length].
    do 2 f_equal. lia.
Qed.

(** C7: on a handle that stands before a plain line, [readline] returns the
    characters of the line, followed by the newline when a newline byte ends
    it and by nothing when the file ends there, and leaves the position
    behind what it returned. *)
Theorem readline_returns_the_line
        (enc : encoding) (pre : list byte) (line : string) (tail : list byte) :
  plain_line line = true ->
  tail = [] \/ (exists rest, tail = x0a :: rest) ->
  readline enc (mkfile (pre ++ bytes_of_string line ++ tail) (length pre) false)
  = (Ok (line ++ line_end tail),
     mkfile (pre ++ bytes_of_string line ++ tail)
            (length pre + String.length (line ++ line_end tail)) false).
Proof.
  intros Hplain Htail. unfold readline.
  exact (read_line_from enc tail Htail line pre "" Hplain).
Qed.

(** The three calls on the bytes of ["abc\ndef"]. *)
Lemma readline_returns_the_line_witness :
  let data := bytes_of_string ("abc" ++ newline ++ "def") in
  readline utf_8 (mkfile data 0 false) = (Ok ("abc" ++ newline), mkfile data 4 false)
  /\ readline utf_8 (mkfile data 4 false) = (Ok "def", mkfile data 7 false)
  /\ readline utf_8 (mkfile data 7 false) = (Ok "", mkfile data 7 false).
Proof.
  split; [|split].
  - apply (readline_returns_the_line utf_8 [] "abc" (x0a :: bytes_of_string "def"));
      [reflexivity | right; eexists; reflexivity].
  - apply (readline_returns_the_line utf_8 (bytes_of_string ("abc" ++ newline)) "def" []);
      [reflexivity | left; reflexivity].
  - apply (readline_returns_the_line utf_8
             (bytes_of_string ("abc" ++ newline ++ "def")) "" []);
      [reflexivity | left; reflexivity].
Defined.

(** ** Single-precision reads *)

Local Open Scope Z_scope.

Lemma digits2_pos_log2 (m : positive) :
  Zpos (digits2_pos m) = Z.log2 (Zpos m) + 1.
Proof.
  assert (Hs : forall p, digits2_pos p = Pos.size p)
    by (induction p; cbn; congruence).
  rewrite Hs. destruct m; cbn [Z.log2 Pos.size]; lia.
Qed.

(** Rounding into a format leaves a number of that format as it is. *)
Lemma binary_round_bounded (prec emax : Z) (s : bool) (m : positive) (e : Z) :
  bounded prec emax m e = true ->
  binary_round prec emax s m e = S754_finite s m e.
Proof.
  unfold bounded, canonical_mantissa. intros H.
  apply andb_prop in H as [Hc He]. apply Z.eqb_eq in Hc.
  unfold binary_round, shl_align. rewrite Hc, Z.sub_diag.
  unfold binary_round_aux, shr_fexp. cbn [Zdigits2].
  rewrite Hc, Z.sub_diag. cbn [shr shr_record_of_loc loc_of_shr_record shr_m
                                round_nearest_even Zdigits2].
  rewrite Hc, Z.sub_diag. cbn [shr shr_m]. now rewrite He.
Qed.

Lemma binary32_bits_bounded (u : Z) :
  valid_binary 24 128 (float_of_bits 23 8 u) = true.
Proof.
  unfold float_of_bits.
  pose proof (Z.mod_pos_bound u (2 ^ 23) ltac:(lia)) as Hf.
  pose proof (Z.mod_pos_bound (u / 2 ^ 23) (2 ^ 8) ltac:(lia)) as He.
  set (frac := u mod 2 ^ 23) in *. set (e := (u / 2 ^ 23) mod 2 ^ 8) in *.
  change (bias 8) with 127.
  destruct (Z.eqb_spec e 0) as [E0|E0].
  - destruct frac as [|m|m] eqn:Efrac; try reflexivity.
    cbn [valid_binary]. unfold bounded, canonical_mantissa, fexp, emin.
    rewrite digits2_pos_log2.
    assert (Z.log2 (Zpos m) < 23) by (apply Z.log2_lt_pow2; lia).
    pose proof (Z.log2_nonneg (Zpos m)).
    apply andb_true_intro; split; [apply Z.eqb_eq | apply Z.leb_le]; lia.
  - destruct (Z.eqb_spec e (2 ^ 8 - 1)) as [E1|E1].
    + now destruct (frac =? 0).
    + destruct (frac + 2 ^ 23) as [|m|m] eqn:Em; try reflexivity.
      cbn [valid_binary]. unfold bounded, canonical_mantissa, fexp, emin.
      rewrite digits2_pos_log2.
      assert (Z.log2 (Zpos m) = 23).
      { apply Z.log2_unique; [lia|]. change (Z.succ 23) with 24. lia. }
      apply andb_true_intro; split; [apply Z.eqb_eq | apply Z.leb_le]; lia.
Qed.

(** [numpy.float32] of a value unpacked from four bytes is that value. *)
Lemma round_binary32_bits (u : Z) :
  round_float 24 128 (float_of_bits 23 8 u) = float_of_bits 23 8 u.
Proof.
  pose proof (binary32_bits_bounded u) as Hv.
  destruct (float_of_bits 23 8 u); try reflexivity.
  cbn [round_float valid_binary] in *. now apply binary_round_bounded.
Qed.

Local Close Scope Z_scope.

Lemma unpack_one_exact (P : platform) (c : ascii) (k : code) (buf : list byte) :
  code_of_ascii c = Some k ->
  length buf = size P k ->
  unpack P (String c "") buf = Ok [decode P k buf].
Proof.
  intros E Hl. unfold unpack. rewrite (struct_unpack_one P c k buf E).
  now rewrite Hl, Nat.eqb_refl.
Qed.

Lemma read_float_one (P : platform) (d : dtype) (h : file) :
  closed h = false ->
  4 <= remaining h ->
  read_float P 1 d h
  = (call_dtype d (decode P Cf (firstn 4 (skipn (pos h) (content h)))),
     set_pos h (pos h + 4)).
Proof.
  intros Hc Hrem. unfold read_float. cbn [Nat.eqb].
  unfold bind. rewrite f_read_open by exact Hc.
  rewrite Nat.min_l by exact Hrem. unfold lift at 1.
  rewrite (unpack_one_exact P "f"%char Cf).
  - reflexivity.
  - reflexivity.
  - rewrite length_firstn, length_skipn. unfold remaining in Hrem. cbn [size]. lia.
Qed.

(** C8: on four bytes, [read_float], [read_real4] and [read_real8] consume
    the same bytes and hold the same number, the value of the bytes read as
    an IEEE-754 binary32; they differ in the type that holds it (Python
    float, [numpy.float32], [numpy.float64]), and the number fits
    binary32. *)
Theorem real4_and_real8_decode_as_read_float (P : platform) (h : file) :
  closed h = false ->
  4 <= remaining h ->
  let x := float_of_bits 23 8
             (le_unsigned (native_order P (firstn 4 (skipn (pos h) (content h))))) in
  read_float P 1 float h = (Ok (VFloat x), set_pos h (pos h + 4))
  /\ read_real4 P 1 h = (Ok (VFloat32 x), set_pos h (pos h + 4))
  /\ read_real8 P 1 h = (Ok (VFloat64 x), set_pos h (pos h + 4))
  /\ valid_binary 24 128 x = true.
Proof.
  intros Hc Hrem x. unfold read_real4, read_real8.
  rewrite !read_float_one by assumption.
  unfold call_dtype, decode, as_float. fold x.
  unfold x at 3. rewrite round_binary32_bits. fold x.
  repeat split. apply binary32_bits_bounded.
Qed.

(** The bytes [00 00 80 3F] in little-endian order are 1.0 = 2^23 * 2^-23. *)
Lemma real4_and_real8_decode_as_read_float_witness :
  let h := mkfile [x00; x00; x80; x3f] 0 false in
  let one := S754_finite false 8388608 (-23) in
  read_float x86_64 1 float h = (Ok (VFloat one), set_pos h 4)
  /\ read_real4 x86_64 1 h = (Ok (VFloat32 one), set_pos h 4)
  /\ read_real8 x86_64 1 h = (Ok (VFloat64 one), set_pos h 4)
  /\ valid_binary 24 128 one = true.
Proof.
  apply (real4_and_real8_decode_as_read_float x86_64
           (mkfile [x00; x00; x80; x3f] 0 false)); [reflexivity | cbn; lia].
Defined.

(** ** What a typed read returns *)

Lemma unpack_run_exact (P : platform) (N : nat) (c : ascii) (k : code) (buf : list byte) :
  code_of_ascii c = Some k ->
  length buf = N * size P k ->
  unpack P (format_d N ++ String c "") buf = Ok (decode_run P k N buf).
Proof.
  intros E Hl. unfold unpack. rewrite (struct_unpack_run P N c k buf E).
  now rewrite Hl, Nat.eqb_refl.
Qed.

Lemma map_outcome_Ok {A} (l : list A) : map_outcome (fun a => Ok a) l = Ok l.
Proof. induction l; cbn; [reflexivity|now rewrite IHl]. Qed.

Lemma firstn_decode_run (P : platform) (k : code) (N : nat) (buf : list byte) :
  firstn N (decode_run P k N buf) = decode_run P k N buf.
Proof. apply firstn_all2. now rewrite decode_run_length. Qed.

(** On a buffer of exactly [N] scalars every typed read but [read_int1]
    with a count gives the decoded scalars. *)
Lemma run_read_exact_buffer (P : platform) (r : typed_read) (N : nat) (buf : list byte) :
  (r = Rint8 -> sizeof_long P = 8) ->
  length buf = width r * N ->
  (r = Rint1 -> N = 1) ->
  fst (run_read P r N (mkfile buf 0 false)) = decoded P r N buf.
Proof.
  intros HP Hl H1. unfold decoded.
  destruct (Nat.eqb_spec N 1) as [->|HN].
  - destruct r; try specialize (HP eq_refl);
      unfold_reads; cbn [Nat.eqb width code_of_read convert] in *;
      unfold bind; rewrite f_read_open by reflexivity;
      cbn [pos content closed]; rewrite skipn_0, firstn_all2 by lia;
      unfold lift at 1;
      match goal with
      | |- context [unpack P (String ?c "") buf] =>
          let k := eval cbv in (code_of_ascii c) in
          match k with
          | Some ?k' =>
              rewrite (unpack_one_exact P c k' buf)
                by (reflexivity || (cbn [size]; lia))
          end
      end; reflexivity.
  - assert (Hr : r <> Rint1) by (intros ->; now apply HN, H1).
    apply Nat.eqb_neq in HN.
    destruct r; try congruence; try specialize (HP eq_refl);
      unfold_reads; rewrite HN; cbn [width code_of_read convert] in *;
      unfold bind; rewrite f_read_open by reflexivity;
      cbn [pos content closed]; rewrite skipn_0, firstn_all2 by lia;
      unfold lift at 1;
      match goal with
      | |- context [unpack P (format_d N ++ String ?c "") buf] =>
          let k := eval cbv in (code_of_ascii c) in
          match k with
          | Some ?k' =>
              rewrite (unpack_run_exact P N c k' buf)
                by (reflexivity || (cbn [size]; lia))
          end
      end;
      rewrite firstn_decode_run; unfold convert, sequence_of;
      try rewrite map_outcome_Ok;
      unfold lift, ret, and_then; split_outcomes; reflexivity.
Qed.

Lemma convert_decode_scalar (P : platform) (r : typed_read) (bs : list byte) :
  exists v, convert r (decode P (code_of_read r) bs) = Ok v /\ is_scalar v = true.
Proof.
  destruct r as [| | | | |[]| | |]; cbn; eexists; split; reflexivity.
Qed.

Lemma convert_decode_run (P : platform) (r : typed_read) (n : nat) :
  forall bs, exists l,
    map_outcome (convert r) (decode_run P (code_of_read r) n bs) = Ok l
    /\ length l = n.
Proof.
  induction n as [|n IH]; intros bs; cbn [decode_run map_outcome].
  - exists []. split; reflexivity.
  - destruct (convert_decode_scalar P r (firstn (size P (code_of_read r)) bs))
      as (v & Hv & _).
    destruct (IH (skipn (size P (code_of_read r)) bs)) as (l & Hl & Hn).
    exists (v :: l). rewrite Hv, Hl. cbn. now rewrite Hn.
Qed.

(** ** Short reads and the size of a C long *)

(** [read_int8] on a file that holds fewer bytes than the [8 * N] it asks
    for: the code ['l'] calls for [N] times the platform's [long], and a
    buffer of just that length unpacks. *)
Lemma read_int8_short_buffer (P : platform) (N : nat) (buf : list byte) :
  length buf < 8 * N ->
  fst (read_int8 P N (mkfile buf 0 false))
  = if Nat.eqb (length buf) (N * sizeof_long P) then decoded P Rint8 N buf
    else Raise IOError.
Proof.
  intros Hl. unfold decoded, read_int8.
  destruct (Nat.eqb_spec N 1) as [->|HN].
  - unfold bind. rewrite f_read_open by reflexivity.
    cbn [pos content closed]. rewrite skipn_0, firstn_all2 by lia.
    unfold lift at 1, unpack.
    rewrite (struct_unpack_one P "l"%char Cl buf eq_refl).
    cbn [size code_of_read convert]. rewrite Nat.mul_1_l.
    destruct (Nat.eqb (length buf) (sizeof_long P)); reflexivity.
  - unfold bind. rewrite f_read_open by reflexivity.
    cbn [pos content closed]. rewrite skipn_0, firstn_all2 by lia.
    unfold lift at 1, unpack.
    rewrite (struct_unpack_run P N "l"%char Cl buf eq_refl).
    cbn [size code_of_read].
    destruct (Nat.eqb (length buf) (N * sizeof_long P)); [|reflexivity].
    unfold ret. cbn [fst]. rewrite firstn_decode_run.
    unfold convert, sequence_of. now rewrite map_outcome_Ok.
Qed.

(** C4 on the code: [unpack] never lets a [struct.error] through and turns
    every mismatch between the buffer length and the size the format calls
    for into an [IOError]; so a typed read that finds fewer than
    [width * N] bytes before end of file never raises [struct.error], and
    it raises [IOError] unless it is [read_int8] and the bytes left are
    just [N] times the platform's [long].  In that case, which a [long] of
    fewer than 8 bytes allows, [read_int8] does not fail: it returns [N]
    integers decoded from the bytes that are left. *)
Theorem short_read_fails_except_int8_on_short_long
        (P : platform) (r : typed_read) (N : nat) (h : file) :
  closed h = false ->
  remaining h < width r * N ->
  fst (run_read P r N h) <> Raise StructError
  /\ ((r = Rint8 -> remaining h <> N * sizeof_long P) ->
      fst (run_read P r N h) = Raise IOError)
  /\ (r = Rint8 -> remaining h = N * sizeof_long P ->
      sizeof_long P < 8
      /\ exists v, run_read P r N h = (Ok v, set_pos h (pos h + remaining h))
                   /\ (if Nat.eqb N 1 then is_scalar v else is_sequence_of N v) = true)
  /\ (forall fmt buf, unpack P fmt buf <> Raise StructError)
  /\ (forall fmt items buf,
         parse_format None fmt = Some items ->
         length buf <> calcsize_from P 0 items ->
         unpack P fmt buf = Raise IOError).
Proof.
  intros Hc Hrem.
  set (buf := firstn (width r * N) (skipn (pos h) (content h))).
  assert (Hlen : length buf = remaining h).
  { unfold buf. rewrite length_firstn, length_skipn. unfold remaining in *. lia. }
  assert (Hio : (r = Rint8 -> remaining h <> N * sizeof_long P) ->
                fst (run_read P r N (mkfile buf 0 false)) = Raise IOError).
  { intros Hne. destruct (typed_read_eq_Rint8 r) as [->|Hr].
    - cbn [run_read]. cbn [width] in Hrem. rewrite read_int8_short_buffer by lia.
      rewrite Hlen. specialize (Hne eq_refl). apply Nat.eqb_neq in Hne.
      now rewrite Hne.
    - apply run_read_short_buffer; [intros E; contradiction|lia]. }
  assert (Hok : r = Rint8 -> remaining h = N * sizeof_long P ->
                exists v, fst (run_read P r N (mkfile buf 0 false)) = Ok v
                          /\ (if Nat.eqb N 1 then is_scalar v
                              else is_sequence_of N v) = true).
  { intros -> He. cbn [run_read]. cbn [width] in Hrem.
    rewrite read_int8_short_buffer by lia.
    rewrite Hlen, He, Nat.eqb_refl. unfold decoded.
    destruct (Nat.eqb N 1).
    - apply convert_decode_scalar.
    - destruct (convert_decode_run P Rint8 N buf) as (l & Hl & Hn).
      rewrite Hl. cbn [and_then sequence_of]. eexists. split; [reflexivity|].
      cbn [is_sequence_of]. now apply Nat.eqb_eq. }
  rewrite run_read_one_raw_read by exact Hc. fold buf. cbn [fst].
  rewrite Nat.min_r by lia.
  split; [|split; [exact Hio|split; [|split]]].
  - destruct (Nat.eq_dec (remaining h) (N * sizeof_long P)) as [He|He];
      destruct (typed_read_eq_Rint8 r) as [Hr|Hr].
    + destruct (Hok Hr He) as (v & -> & _). discriminate.
    + rewrite Hio by (intros E; contradiction). discriminate.
    + rewrite Hio by (intros _; exact He). discriminate.
    + rewrite Hio by (intros E; contradiction). discriminate.
  - intros Hr He. split.
    + subst r. cbn [width] in Hrem. nia.
    + destruct (Hok Hr He) as (v & Hv & Hs). exists v. split; [|exact Hs].
      now rewrite <- Hv.
  - apply unpack_never_struct_error.
  - apply unpack_length_mismatch.
Qed.

(** On Windows (a 4-byte [long]) [read_int8] with 4 bytes left returns the
    integer they hold, and [read_int8(2)] with 8 bytes left returns two. *)
Lemma short_read_fails_except_int8_on_short_long_witness :
  let h := mkfile [x07; x07; x01; x00; x00; x00] 2 false in
  let g := mkfile [x01; x00; x00; x00; x02; x00; x00; x00] 0 false in
  (4 < 8
   /\ exists v, run_read windows_x64 Rint8 1 h = (Ok v, set_pos h (2 + 4))
                /\ is_scalar v = true)
  /\ run_read windows_x64 Rint8 1 h = (Ok (VInt 1), set_pos h 6)
  /\ run_read windows_x64 Rint8 2 g = (Ok (VTuple [VInt 1; VInt 2]), set_pos g 8)
  /\ fst (run_read x86_64 Rint8 1 h) = Raise IOError.
Proof.
  split; [|split; [reflexivity|split; [reflexivity|]]].
  - apply (short_read_fails_except_int8_on_short_long windows_x64 Rint8 1
             (mkfile [x07; x07; x01; x00; x00; x00] 2 false));
      [reflexivity | cbn; lia | reflexivity | reflexivity].
  - apply (short_read_fails_except_int8_on_short_long x86_64 Rint8 1
             (mkfile [x07; x07; x01; x00; x00; x00] 2 false));
      [reflexivity | cbn; lia | intros _; cbn; lia].
Defined.

(** C6 on the code: with the bytes there, a typed read called with [N = 1]
    returns a bare number and one called with [N > 1] returns a sequence of
    exactly [N] values; except that [read_int1] called with [N > 1] returns
    nothing and raises [IOError]. *)
Theorem typed_read_result_shape (P : platform) (r : typed_read) (N : nat) (h : file) :
  (r = Rint8 -> sizeof_long P = 8) ->
  closed h = false ->
  width r * N <= remaining h ->
  (N = 1 -> exists v, fst (run_read P r N h) = Ok v /\ is_scalar v = true)
  /\ (1 < N -> r <> Rint1 ->
      exists v, fst (run_read P r N h) = Ok v /\ is_sequence_of N v = true)
  /\ (1 < N -> r = Rint1 -> fst (run_read P r N h) = Raise IOError).
Proof.
  intros HP Hc Hrem.
  assert (Hlen : length (firstn (width r * N) (skipn (pos h) (content h)))
                 = width r * N).
  { rewrite length_firstn, length_skipn. unfold remaining in Hrem. lia. }
  rewrite run_read_one_raw_read by exact Hc. cbn [fst].
  split; [|split].
  - intros ->. rewrite run_read_exact_buffer by (auto; lia).
    unfold decoded. cbn [Nat.eqb]. apply convert_decode_scalar.
  - intros HN Hr. rewrite run_read_exact_buffer by (auto; congruence).
    unfold decoded. replace (Nat.eqb N 1) with false by (symmetry; apply Nat.eqb_neq; lia).
    destruct (convert_decode_run P r N
                (firstn (width r * N) (skipn (pos h) (content h)))) as (l & Hl & Hn).
    rewrite Hl. cbn [and_then]. eexists. split; [reflexivity|].
    destruct r; cbn; now apply Nat.eqb_eq.
  - intros HN ->. cbn [run_read].
    apply read_int1_unformatted; [lia | reflexivity].
Qed.

Lemma typed_read_result_shape_witness :
  let h := mkfile [x01; x00; x00; x00; xff; xff; xff; xff] 0 false in
  (exists v, fst (run_read x86_64 Rint4 2 h) = Ok v /\ is_sequence_of 2 v = true)
  /\ fst (run_read x86_64 Rint1 2 h) = Raise IOError.
Proof.
  split.
  - apply (typed_read_result_shape x86_64 Rint4 2);
      [reflexivity | reflexivity | cbn; lia | lia | discriminate].
  - apply (typed_read_result_shape x86_64 Rint1 2);
      [reflexivity | reflexivity | cbn; lia | lia | reflexivity].
Defined.

(** ** Integers to bytes and back *)

Local Open Scope Z_scope.

Lemma Z_of_byte_of_Z (z : Z) : Z_of_byte (byte_of_Z z) = z mod 256.
Proof.
  unfold Z_of_byte, byte_of_Z.
  pose proof (Z.mod_pos_bound z 256 ltac:(lia)) as Hb.
  pose proof (Byte.to_of_N_option_map (Z.to_N (z mod 256))) as Ho.
  destruct (Byte.of_N (Z.to_N (z mod 256))) as [b|] eqn:E.
  - rewrite (Byte.to_of_N _ E). lia.
  - cbn in Ho. destruct (N.leb_spec (Z.to_N (z mod 256)) 255); [discriminate|lia].
Qed.

Lemma le_bytes_length (w : nat) : forall z, length (le_bytes w z) = w.
Proof. induction w; intros z; cbn; [reflexivity|now rewrite IHw]. Qed.

Lemma le_unsigned_le_bytes (w : nat) :
  forall z, le_unsigned (le_bytes w z) = z mod 2 ^ (8 * Z.of_nat w).
Proof.
  induction w as [|w IH]; intros z.
  - cbn. now rewrite Z.mod_1_r.
  - cbn [le_bytes le_unsigned]. rewrite Z_of_byte_of_Z, IH.
    replace (8 * Z.of_nat (S w)) with (8 + 8 * Z.of_nat w) by lia.
    rewrite Z.pow_add_r by lia. change (2 ^ 8) with 256.
    rewrite Z.rem_mul_r by lia. reflexivity.
Qed.

Lemma to_signed_mod (w : nat) (z : Z) :
  (0 < w)%nat ->
  in_range w z = true ->
  to_signed w (z mod 2 ^ (8 * Z.of_nat w)) = z.
Proof.
  intros Hw Hr. unfold in_range, int_min, int_max in Hr.
  apply andb_prop in Hr as [Hlo Hhi].
  apply Z.leb_le in Hlo. apply Z.leb_le in Hhi.
  unfold to_signed.
  set (k := 8 * Z.of_nat w - 1) in *.
  replace (8 * Z.of_nat w) with (k + 1) by (unfold k; lia).
  assert (0 <= k) by (unfold k; lia).
  rewrite Z.pow_add_r by lia. change (2 ^ 1) with 2.
  assert (0 < 2 ^ k) by (apply Z.pow_pos_nonneg; lia).
  destruct (Z.le_gt_cases 0 z) as [Hz|Hz].
  - rewrite Z.mod_small by lia.
    destruct (Z.ltb_spec z (2 ^ k)); lia.
  - replace (z mod (2 ^ k * 2)) with (z + 2 ^ k * 2).
    + destruct (Z.ltb_spec (z + 2 ^ k * 2) (2 ^ k)); lia.
    + apply Z.mod_unique with (q := -1); lia.
Qed.

Local Close Scope Z_scope.

Section RoundTrip.

Variable P : platform.

Lemma native_order_involutive (bs : list byte) :
  native_order P (native_order P bs) = bs.
Proof. unfold native_order. destruct (big_endian P); [apply rev_involutive|reflexivity]. Qed.

Lemma native_order_length (bs : list byte) :
  length (native_order P bs) = length bs.
Proof. unfold native_order. destruct (big_endian P); [apply length_rev|reflexivity]. Qed.

Lemma decode_encode_int (k : code) (z : Z) :
  int_code k = true ->
  (0 < size P k) ->
  in_range (size P k) z = true ->
  encode P k (VInt z) = Ok (native_order P (le_bytes (size P k) z))
  /\ decode P k (native_order P (le_bytes (size P k) z)) = VInt z.
Proof.
  intros Hk Hs Hr. split.
  - destruct k; try discriminate; cbn [encode]; now rewrite Hr.
  - assert (E : to_signed (size P k)
                  (le_unsigned (native_order P (native_order P (le_bytes (size P k) z)))) = z).
    { rewrite native_order_involutive, le_unsigned_le_bytes.
      now apply to_signed_mod. }
    destruct k; try discriminate; cbn [decode]; now rewrite E.
Qed.

Lemma encode_all_ints (k : code) (zs : list Z) :
  int_code k = true ->
  (0 < size P k) ->
  forallb (in_range (size P k)) zs = true ->
  map_outcome (encode P k) (map VInt zs)
  = Ok (map (fun z => native_order P (le_bytes (size P k) z)) zs).
Proof.
  intros Hk Hs. induction zs as [|z zs IH]; intros Hr; cbn [map map_outcome].
  - reflexivity.
  - cbn [forallb] in Hr. apply andb_prop in Hr as [Hz Hzs].
    destruct (decode_encode_int k z Hk Hs Hz) as [-> _].
    now rewrite IH.
Qed.

Lemma concat_runs_length (w : nat) (zs : list Z) :
  length (concat (map (fun z => native_order P (le_bytes w z)) zs))
  = length zs * w.
Proof.
  induction zs as [|z zs IH]; cbn [map concat length]; [reflexivity|].
  rewrite length_app, native_order_length, le_bytes_length, IH. lia.
Qed.

Lemma decode_run_ints (k : code) (zs : list Z) :
  int_code k = true ->
  (0 < size P k) ->
  forallb (in_range (size P k)) zs = true ->
  decode_run P k (length zs)
    (concat (map (fun z => native_order P (le_bytes (size P k) z)) zs))
  = map VInt zs.
Proof.
  intros Hk Hs. induction zs as [|z zs IH]; intros Hr; cbn [map concat length decode_run].
  - reflexivity.
  - cbn [forallb] in Hr. apply andb_prop in Hr as [Hz Hzs].
    assert (Hl : length (native_order P (le_bytes (size P k) z)) = size P k)
      by now rewrite native_order_length, le_bytes_length.
    rewrite <- Hl at 1. rewrite firstn_app, firstn_all, Nat.sub_diag, firstn_O, app_nil_r.
    rewrite <- Hl at 2. rewrite skipn_length_app.
    destruct (decode_encode_int k z Hk Hs Hz) as [_ ->].
    now rewrite IH.
Qed.

End RoundTrip.

(** ** Writing integers and reading them back *)

Lemma struct_pack_run (P : platform) (N : nat) (c : ascii) (k : code) (args : list pyval) :
  code_of_ascii c = Some k ->
  length args = N ->
  struct_pack P (format_d N ++ String c "") args
  = and_then (map_outcome (encode P k) args) (fun bss => Ok (concat bss)).
Proof.
  intros E Hl. unfold struct_pack.
  rewrite (parse_format_count N c k "" E). cbn [parse_format option_map].
  cbn [count_items fold_right fst]. rewrite Nat.add_0_r, Hl, Nat.eqb_refl.
  cbn [pack_from]. unfold alignment. rewrite align_up_0.
  rewrite <- Hl, firstn_all.
  destruct (map_outcome (encode P k) args) as [bss|e]; cbn; [|reflexivity].
  now rewrite app_nil_r.
Qed.

Lemma struct_pack_one (P : platform) (c : ascii) (k : code) (v : pyval) :
  code_of_ascii c = Some k ->
  struct_pack P (String c "") [v] = encode P k v.
Proof.
  intros E. unfold struct_pack. cbn [parse_format].
  rewrite (code_is_no_digit c k E), E.
  replace (is_space c) with false
    by (destruct c as [[] [] [] [] [] [] [] []]; cbn in *; congruence).
  cbn [parse_format option_map count_items fold_right fst length Nat.add Nat.eqb].
  cbn [pack_from firstn map_outcome]. unfold alignment. rewrite align_up_0.
  destruct (encode P k v) as [bs|e]; cbn; [|reflexivity].
  now rewrite !app_nil_r.
Qed.

(** Bytes written at a position are the bytes a raw read from that position
    gives back, and the read ends where the write ended. *)
Lemma f_read_after_f_write (bs : list byte) (h : file) :
  closed h = false ->
  f_write bs h = (Ok (length bs), snd (f_write bs h))
  /\ f_read (length bs) (set_pos (snd (f_write bs h)) (pos h))
     = (Ok bs, snd (f_write bs h)).
Proof.
  intros Hc. unfold f_write. rewrite Hc.
  destruct bs as [|b0 bs0].
  { cbn [snd length]. split; [reflexivity|].
    unfold f_read, set_pos. cbn [closed pos content firstn length].
    rewrite Hc, Nat.add_0_r. destruct h; cbn in *. now subst. }
  set (bs := b0 :: bs0).
  cbn [snd]. split; [reflexivity|].
  unfold f_read, set_pos. cbn [closed pos content].
  set (before := (firstn (pos h) (content h)
                  ++ repeat x00 (pos h - length (content h)))%list).
  assert (Hb : length before = pos h).
  { unfold before. rewrite length_app, length_firstn, repeat_length. lia. }
  set (after := skipn (pos h + length bs) (content h)).
  assert (E : firstn (length bs) (skipn (pos h) (before ++ bs ++ after)) = bs).
  { rewrite <- Hb, skipn_length_app.
    rewrite <- (Nat.add_0_r (length bs)).
    now rewrite firstn_app_2, firstn_O, app_nil_r. }
  now rewrite E.
Qed.

Lemma write_type_ints (P : platform) (c : ascii) (k : code) (zs : list Z) (h : file) :
  code_of_ascii c = Some k ->
  int_code k = true ->
  0 < size P k ->
  closed h = false ->
  zs <> [] ->
  forallb (in_range (size P k)) zs = true ->
  write_type P (written zs) (String c "") h
  = (Ok VNone,
     snd (f_write (concat (map (fun z => native_order P (le_bytes (size P k) z)) zs)) h)).
Proof.
  intros E Hk Hs Hc Hne Hr.
  set (bs := concat (map (fun z => native_order P (le_bytes (size P k) z)) zs)).
  destruct (f_read_after_f_write bs h Hc) as [Hw _].
  assert (Hpack : forall N, N = length zs ->
            struct_pack P (format_d N ++ String c "") (map VInt zs) = Ok bs).
  { intros N ->. rewrite (struct_pack_run P (length zs) c k) by (auto using length_map).
    now rewrite (encode_all_ints P k zs Hk Hs Hr). }
  destruct zs as [|z [|z' zs]]; [congruence| |].
  - unfold written, write_type. cbn [has_iter].
    unfold bind, lift. rewrite (struct_pack_one P c k _ E).
    cbn [forallb] in Hr. apply andb_prop in Hr as [Hz _].
    destruct (decode_encode_int P k z Hk Hs Hz) as [-> _].
    replace (native_order P (le_bytes (size P k) z)) with bs
      by (unfold bs; cbn; now rewrite app_nil_r).
    now rewrite Hw.
  - unfold written, write_type. cbn [has_iter elements].
    unfold bind, lift. rewrite Hpack by now rewrite length_map.
    now rewrite Hw.
Qed.

Lemma read_back_decoded (P : platform) (r : typed_read) (zs : list Z) :
  int_code (code_of_read r) = true ->
  0 < size P (code_of_read r) ->
  zs <> [] ->
  forallb (in_range (size P (code_of_read r))) zs = true ->
  decoded P r (length zs)
    (concat (map (fun z => native_order P (le_bytes (size P (code_of_read r)) z)) zs))
  = Ok (read_back zs).
Proof.
  intros Hk Hs Hne Hr. unfold decoded.
  assert (Hconv : forall v, convert r v = Ok v)
    by (destruct r; try discriminate; reflexivity).
  destruct zs as [|z [|z' zs]]; [congruence| |].
  - cbn [length Nat.eqb map concat read_back]. rewrite app_nil_r, Hconv.
    cbn [forallb] in Hr. apply andb_prop in Hr as [Hz _].
    now destruct (decode_encode_int P (code_of_read r) z Hk Hs Hz) as [_ ->].
  - replace (Nat.eqb (length (z :: z' :: zs)) 1) with false by reflexivity.
    rewrite (decode_run_ints P (code_of_read r) _ Hk Hs Hr).
    replace (map_outcome (convert r) (map VInt (z :: z' :: zs)))
      with (Ok (map VInt (z :: z' :: zs))).
    + destruct r; try discriminate; reflexivity.
    + symmetry. rewrite <- (map_outcome_Ok (map VInt (z :: z' :: zs))).
      generalize (map VInt (z :: z' :: zs)). intros l.
      induction l as [|v l IH]; cbn [map_outcome]; [reflexivity|].
      now rewrite Hconv, IH.
Qed.

Lemma write_then_run_read (P : platform) (r : typed_read) (c : ascii)
      (zs : list Z) (h : file) :
  (r = Rint8 -> sizeof_long P = 8) ->
  code_of_ascii c = Some (code_of_read r) ->
  int_code (code_of_read r) = true ->
  size P (code_of_read r) = width r ->
  0 < width r ->
  (r = Rint1 -> length zs = 1) ->
  closed h = false ->
  zs <> [] ->
  forallb (in_range (width r)) zs = true ->
  exists h',
    write_type P (written zs) (String c "") h = (Ok VNone, h')
    /\ pos h' = pos h + width r * length zs
    /\ run_read P r (length zs) (set_pos h' (pos h)) = (Ok (read_back zs), h').
Proof.
  intros HP E Hk Hsz Hw H1 Hc Hne Hr.
  set (bs := concat (map (fun z => native_order P
                                      (le_bytes (size P (code_of_read r)) z)) zs)).
  assert (Hlen : length bs = width r * length zs).
  { unfold bs. rewrite concat_runs_length, Hsz. lia. }
  exists (snd (f_write bs h)).
  destruct (f_read_after_f_write bs h Hc) as [Hwr Hrd].
  assert (Hc' : closed (set_pos (snd (f_write bs h)) (pos h)) = false)
    by exact (proj1 (proj2 (f_write_open bs h Hc))).
  split; [|split].
  - apply write_type_ints; try assumption; rewrite Hsz; assumption.
  - rewrite (proj2 (proj2 (f_write_open bs h Hc))). lia.
  - rewrite run_read_one_raw_read by exact Hc'.
    rewrite f_read_open in Hrd by exact Hc'. rewrite Hlen in Hrd.
    injection Hrd as Hbuf Hh.
    change (pos (set_pos (snd (f_write bs h)) (pos h))) with (pos h).
    change (content (set_pos (snd (f_write bs h)) (pos h)))
      with (content (snd (f_write bs h))).
    rewrite Hbuf, Hh.
    rewrite run_read_exact_buffer by assumption.
    f_equal. unfold bs. rewrite <- Hsz in Hr.
    apply read_back_decoded; try assumption. now rewrite Hsz.
Qed.

(** The round trip that holds: integers that fit the width, written with
    [write_intW] (one as a bare scalar, several as a list) and read from
    where the write began with [read_intW] and their count, come back as
    they were, bare when there is one and as a tuple of as many otherwise,
    and the read ends where the write ended.  For width 1 this holds for a
    single integer only. *)
Theorem int_round_trip (P : platform) (w : int_width) (zs : list Z) (h : file) :
  (w = W8 -> sizeof_long P = 8) ->
  closed h = false ->
  zs <> [] ->
  forallb (in_range (bytes_of_width w)) zs = true ->
  (w = W1 -> length zs = 1) ->
  exists h',
    write_intW P w (written zs) h = (Ok VNone, h')
    /\ pos h' = pos h + bytes_of_width w * length zs
    /\ read_intW P w (length zs) (set_pos h' (pos h)) = (Ok (read_back zs), h').
Proof.
  intros HP Hc Hne Hr H1.
  destruct w; cbn [write_intW read_intW bytes_of_width] in *;
    unfold write_int1, write_int2, write_int4, write_int8.
  - apply (write_then_run_read P Rint1 "b"%char);
      auto; cbn; (lia || discriminate).
  - apply (write_then_run_read P Rint2 "h"%char);
      auto; cbn; (lia || discriminate).
  - apply (write_then_run_read P Rint4 "i"%char);
      auto; cbn; (lia || discriminate).
  - specialize (HP eq_refl).
    apply (write_then_run_read P Rint8 "l"%char);
      auto; cbn; (lia || discriminate).
Qed.

Lemma int_round_trip_witness :
  let h := mkfile [x07; x07; x07; x07; x07; x07] 1 false in
  exists h',
    write_int2 x86_64 (VList [VInt (-2); VInt 258]) h = (Ok VNone, h')
    /\ pos h' = 5
    /\ read_int2 x86_64 2 (set_pos h' 1) = (Ok (VTuple [VInt (-2); VInt 258]), h').
Proof.
  apply (int_round_trip x86_64 W2 [-2; 258]%Z
           (mkfile [x07; x07; x07; x07; x07; x07] 1 false));
    [reflexivity | reflexivity | discriminate | reflexivity | discriminate].
Defined.

(** C3 fails on the code for width 1 and more than one value: the list is
    written as its two bytes, and [read_int1] on those bytes raises
    [IOError] where the siblings return the values. *)
Theorem int1_run_is_not_read_back :
  let h := mkfile [] 0 false in
  let h' := mkfile [x01; xfe] 2 false in
  write_int1 x86_64 (VList [VInt 1; VInt (-2)]) h = (Ok VNone, h')
  /\ read_int1 x86_64 2 (set_pos h' 0) = (Raise IOError, h')
  /\ write_int2 x86_64 (VList [VInt 1; VInt (-2)]) h
     = (Ok VNone, mkfile [x01; x00; xfe; xff] 4 false)
  /\ read_int2 x86_64 2 (mkfile [x01; x00; xfe; xff] 0 false)
     = (Ok (VTuple [VInt 1; VInt (-2)]), mkfile [x01; x00; xfe; xff] 4 false).
Proof. cbv zeta. repeat split. Qed.

(** * Further properties of the code *)

(** ** Typed writes of integers *)

(** An integer write packs its values and hands the bytes to the handle in
    one raw write, whether the value is bare, a list or a tuple. *)
Lemma write_type_packs_ints (P : platform) (c : ascii) (k : code)
      (zs : list Z) (v : pyval) (h : file) :
  code_of_ascii c = Some k ->
  int_code k = true ->
  0 < size P k ->
  forallb (in_range (size P k)) zs = true ->
  (exists z, v = VInt z /\ zs = [z])
  \/ (has_iter v = true /\ elements v = map VInt zs) ->
  write_type P v (String c "") h
  = bind (f_write (concat (map (fun z => native_order P (le_bytes (size P k) z)) zs)))
         (fun _ => ret VNone) h.
Proof.
  intros E Hk Hs Hr [(z & -> & ->)|[Hi He]].
  - unfold write_type. cbn [has_iter]. unfold bind at 1, lift.
    rewrite (struct_pack_one P c k _ E).
    cbn [forallb] in Hr. apply andb_prop in Hr as [Hz _].
    destruct (decode_encode_int P k z Hk Hs Hz) as [-> _].
    cbn [map concat]. now rewrite app_nil_r.
  - unfold write_type. rewrite Hi, He. unfold bind at 1, lift.
    rewrite (struct_pack_run P (length (map VInt zs)) c k) by auto.
    now rewrite (encode_all_ints P k zs Hk Hs Hr).
Qed.

Lemma written_is_bare_or_iterable (zs : list Z) :
  zs <> [] ->
  (exists z, written zs = VInt z /\ zs = [z])
  \/ (has_iter (written zs) = true /\ elements (written zs) = map VInt zs).
Proof.
  intros Hne. destruct zs as [|z [|z' zs]]; [congruence| |].
  - left. now exists z.
  - right. split; reflexivity.
Qed.

(** The format character and code of each integer width. *)
Lemma write_intW_is_write_type (P : platform) (w : int_width) (v : pyval) :
  exists c,
    write_intW P w v = write_type P v (String c "")
    /\ code_of_ascii c = Some (code_of_read (read_of_width w))
    /\ int_code (code_of_read (read_of_width w)) = true
    /\ ((w = W8 -> sizeof_long P = 8) ->
        size P (code_of_read (read_of_width w)) = bytes_of_width w).
Proof.
  destruct w; [exists "b"%char|exists "h"%char|exists "i"%char|exists "l"%char];
    repeat split; cbn; auto.
Qed.

(** ** A closed handle *)

Lemma f_close_closed (h : file) : closed h = true -> f_close h = (Ok tt, h).
Proof. intros Hc. unfold f_close. destruct h; cbn in *. now subst. Qed.

Lemma run_read_closed (P : platform) (r : typed_read) (N : nat) (h : file) :
  closed h = true -> run_read P r N h = (Raise ValueError, h).
Proof.
  intros Hc. destruct r; unfold_reads; destruct (Nat.eqb N 1);
    unfold bind, f_read; rewrite Hc; reflexivity.
Qed.

Lemma readline_closed (enc : encoding) (h : file) :
  closed h = true -> readline enc h = (Raise ValueError, h).
Proof. intros Hc. unfold readline, read_char, bind, f_read. now rewrite Hc. Qed.

(** X2: once the handle is closed, every read (typed, raw, character or
    line) and every write of values that pack raises [ValueError] and
    leaves the handle as it is; closing again is allowed and changes
    nothing. *)
Theorem closed_handle_raises_ValueError (P : platform) (h : file) :
  closed h = true ->
  (forall r N, run_read P r N h = (Raise ValueError, h))
  /\ (forall n, read n h = (Raise ValueError, h))
  /\ (forall enc, read_char enc h = (Raise ValueError, h))
  /\ (forall enc, readline enc h = (Raise ValueError, h))
  /\ (forall w zs,
        (w = W8 -> sizeof_long P = 8) ->
        zs <> [] ->
        forallb (in_range (bytes_of_width w)) zs = true ->
        write_intW P w (written zs) h = (Raise ValueError, h))
  /\ (forall bs enc, write (Bytes bs) enc h = (inr (Raise ValueError), h))
  /\ close h = (Ok tt, h).
Proof.
  intros Hc. repeat split.
  - intros r N. now apply run_read_closed.
  - intros n. unfold read, f_read. now rewrite Hc.
  - intros enc. unfold read_char, bind, f_read. now rewrite Hc.
  - intros enc. now apply readline_closed.
  - intros w zs HP Hne Hr.
    destruct (write_intW_is_write_type P w (written zs)) as (c & -> & E & Hk & Hs).
    specialize (Hs HP).
    assert (Hpos : 0 < size P (code_of_read (read_of_width w)))
      by (rewrite Hs; destruct w; cbn; lia).
    rewrite <- Hs in Hr.
    rewrite (write_type_packs_ints P c _ zs (written zs) h E Hk Hpos Hr
               (written_is_bare_or_iterable zs Hne)).
    unfold bind, f_write. now rewrite Hc.
  - intros bs enc. unfold write, bind, f_write. now rewrite Hc.
  - now apply f_close_closed.
Qed.

Lemma closed_handle_raises_ValueError_witness :
  let h := mkfile [x01; x02; x03; x04] 0 true in
  run_read x86_64 Rint4 1 h = (Raise ValueError, h)
  /\ readline utf_8 h = (Raise ValueError, h)
  /\ write_intW x86_64 W2 (written [7%Z]) h = (Raise ValueError, h).
Proof.
  split; [|split].
  - apply (closed_handle_raises_ValueError x86_64 (mkfile [x01; x02; x03; x04] 0 true));
      reflexivity.
  - apply (closed_handle_raises_ValueError x86_64 (mkfile [x01; x02; x03; x04] 0 true));
      reflexivity.
  - apply (closed_handle_raises_ValueError x86_64 (mkfile [x01; x02; x03; x04] 0 true));
      [reflexivity | discriminate | discriminate | reflexivity].
Defined.

(** X3: whatever the body of a [with] block does, once the block is left
    the handle refuses every typed read and every line read with
    [ValueError]. *)
Theorem handle_is_unusable_after_with
        (P : platform) (A : Type) (body : M A) (w : process) :
  let h' := handle (snd (with_statement body w)) in
  (forall r N, run_read P r N h' = (Raise ValueError, h'))
  /\ (forall enc, readline enc h' = (Raise ValueError, h')).
Proof.
  assert (Hc : closed (handle (snd (with_statement body w))) = true).
  { unfold with_statement, __enter__, ret.
    destruct (body (handle w)) as [[a|e] h1]; rewrite __exit___closes; reflexivity. }
  cbv zeta. split.
  - intros r N. now apply run_read_closed.
  - intros enc. now apply readline_closed.
Qed.

(** ** Raw reads *)

Lemma firstn_add {A} (n m : nat) :
  forall l : list A, firstn (n + m) l = (firstn n l ++ firstn m (skipn n l))%list.
Proof.
  induction n as [|n IH]; intros l; [reflexivity|].
  destruct l as [|a l]; cbn [Nat.add firstn skipn app].
  - now rewrite firstn_nil.
  - now rewrite IH.
Qed.

Lemma skipn_past_position (n : nat) (h : file) :
  skipn (pos h + Nat.min n (remaining h)) (content h)
  = skipn n (skipn (pos h) (content h)).
Proof.
  rewrite skipn_skipn. unfold remaining.
  destruct (Nat.le_gt_cases n (length (content h) - pos h)) as [Hle|Hgt].
  - rewrite Nat.min_l by exact Hle. f_equal. lia.
  - rewrite Nat.min_r by lia. now rewrite !skipn_all2 by lia.
Qed.

(** X4: on an open handle, [read(n)] returns the [n] bytes that follow the
    position, or all that follow it when fewer are left, and moves the
    position by what it returned; a second [read(m)] returns the bytes that
    follow those, and the two together are the bytes of one [read(n + m)],
    which ends at the same position.  A typed read leaves the handle where
    a raw read of [width * N] bytes leaves it, and [read_char] where
    [read(1)] does. *)
Theorem read_returns_what_is_there (n m : nat) (h : file) :
  closed h = false ->
  let l := skipn (pos h) (content h) in
  let b1 := firstn n l in
  let b2 := firstn m (skipn n l) in
  read n h = (Ok b1, set_pos h (pos h + length b1))
  /\ length b1 = Nat.min n (remaining h)
  /\ read m (set_pos h (pos h + length b1))
     = (Ok b2, set_pos h (pos h + length b1 + length b2))
  /\ read (n + m) h = (Ok (b1 ++ b2)%list, set_pos h (pos h + length b1 + length b2))
  /\ (forall P r N, snd (run_read P r N h) = snd (read (width r * N) h))
  /\ (forall enc, snd (read_char enc h) = snd (read 1 h)).
Proof.
  intros Hc l b1 b2.
  assert (Hl : length l = remaining h) by (unfold l; apply length_skipn).
  assert (H1 : length b1 = Nat.min n (remaining h))
    by (unfold b1; now rewrite length_firstn, Hl).
  assert (H2 : length b2 = Nat.min m (remaining h - n))
    by (unfold b2; now rewrite length_firstn, length_skipn, Hl).
  assert (Hs : skipn (pos h + length b1) (content h) = skipn n l).
  { rewrite H1. apply skipn_past_position. }
  unfold read. split; [|split; [exact H1|split; [|split; [|split]]]].
  - rewrite f_read_open by exact Hc. fold l. fold b1. now rewrite H1.
  - rewrite f_read_open by exact Hc. cbn [pos content set_pos].
    rewrite Hs. fold b2. unfold set_pos. cbn [pos content closed].
    do 2 f_equal. rewrite H2. unfold remaining. cbn [pos content].
    rewrite H1. unfold remaining. lia.
  - rewrite f_read_open by exact Hc. fold l. rewrite firstn_add.
    fold b1. fold b2.
    unfold set_pos. do 2 f_equal. rewrite H1, H2. unfold remaining. lia.
  - intros P r N. rewrite run_read_one_raw_read, f_read_open by exact Hc.
    reflexivity.
  - intros enc. rewrite read_char_one_raw_read, f_read_open by exact Hc.
    reflexivity.
Qed.

(** Five bytes, the position behind the first: [read(3)] returns the next
    three, [read(4)] the one that is left, [read(7)] all four. *)
Lemma read_returns_what_is_there_witness :
  let h := mkfile [x0a; x0b; x0c; x0d; x0e] 1 false in
  read 3 h = (Ok [x0b; x0c; x0d], set_pos h 4)
  /\ read 4 (set_pos h 4) = (Ok [x0e], set_pos h 5)
  /\ read 7 h = (Ok [x0b; x0c; x0d; x0e], set_pos h 5)
  /\ snd (read_int4 x86_64 1 h) = snd (read 4 h).
Proof.
  pose proof (read_returns_what_is_there 3 4 (mkfile [x0a; x0b; x0c; x0d; x0e] 1 false)
                eq_refl) as (R1 & _ & R2 & R3 & R4 & _).
  split; [exact R1|split; [exact R2|split; [exact R3|exact (R4 x86_64 Rint4 1)]]].
Defined.

(** ** Bytes to integers and back *)

Local Open Scope Z_scope.

Lemma Z_of_byte_range (b : byte) : 0 <= Z_of_byte b < 256.
Proof.
  unfold Z_of_byte. pose proof (Byte.to_N_bounded b). lia.
Qed.

Lemma byte_of_Z_of_byte (b : byte) : byte_of_Z (Z_of_byte b) = b.
Proof.
  unfold byte_of_Z. rewrite Z.mod_small by apply Z_of_byte_range.
  unfold Z_of_byte. now rewrite N2Z.id, Byte.of_to_N.
Qed.

Lemma byte_of_Z_mod (z k : Z) : byte_of_Z (z + k * 256) = byte_of_Z z.
Proof. unfold byte_of_Z. now rewrite Z_mod_plus_full. Qed.

Lemma le_unsigned_range (bs : list byte) :
  0 <= le_unsigned bs < 2 ^ (8 * Z.of_nat (length bs)).
Proof.
  induction bs as [|b bs IH]; cbn [le_unsigned length].
  - cbn. lia.
  - pose proof (Z_of_byte_range b).
    replace (8 * Z.of_nat (S (length bs))) with (8 + 8 * Z.of_nat (length bs)) by lia.
    rewrite Z.pow_add_r by lia. change (2 ^ 8) with 256. nia.
Qed.

Lemma le_bytes_le_unsigned (bs : list byte) :
  le_bytes (length bs) (le_unsigned bs) = bs.
Proof.
  induction bs as [|b bs IH]; cbn [le_unsigned length le_bytes]; [reflexivity|].
  rewrite (Z.mul_comm 256), byte_of_Z_mod, byte_of_Z_of_byte.
  rewrite Z_div_plus_full by lia.
  rewrite Z.div_small by apply Z_of_byte_range. cbn [Z.add]. now rewrite IH.
Qed.

Lemma le_bytes_add_multiple (w : nat) :
  forall z k, le_bytes w (z + k * 2 ^ (8 * Z.of_nat w)) = le_bytes w z.
Proof.
  induction w as [|w IH]; intros z k; cbn [le_bytes]; [reflexivity|].
  replace (8 * Z.of_nat (S w)) with (8 * Z.of_nat w + 8) by lia.
  rewrite Z.pow_add_r by lia. change (2 ^ 8) with 256.
  rewrite Z.mul_assoc, byte_of_Z_mod, Z_div_plus_full by lia.
  now rewrite IH.
Qed.

Lemma le_bytes_to_signed (w : nat) (u : Z) :
  le_bytes w (to_signed w u) = le_bytes w u.
Proof.
  unfold to_signed. destruct (u <? 2 ^ (8 * Z.of_nat w - 1)); [reflexivity|].
  replace (u - 2 ^ (8 * Z.of_nat w)) with (u + (-1) * 2 ^ (8 * Z.of_nat w)) by lia.
  apply le_bytes_add_multiple.
Qed.

Lemma to_signed_in_range (w : nat) (u : Z) :
  (0 < w)%nat ->
  0 <= u < 2 ^ (8 * Z.of_nat w) ->
  in_range w (to_signed w u) = true.
Proof.
  intros Hw Hu. unfold in_range, int_min, int_max, to_signed.
  set (k := 8 * Z.of_nat w - 1) in *.
  replace (8 * Z.of_nat w) with (k + 1) in * by (unfold k; lia).
  assert (0 <= k) by (unfold k; lia).
  rewrite Z.pow_add_r in * by lia. change (2 ^ 1) with 2 in *.
  assert (0 < 2 ^ k) by (apply Z.pow_pos_nonneg; lia).
  apply andb_true_intro.
  destruct (Z.ltb_spec u (2 ^ k)); split; apply Z.leb_le; lia.
Qed.

Local Close Scope Z_scope.

Section IntBytes.

Variable P : platform.

(** What an integer code decodes from a run of its size, and that packing
    the integer gives the run back. *)
Lemma decode_int_bytes (k : code) (c : list byte) :
  int_code k = true ->
  0 < size P k ->
  length c = size P k ->
  decode P k c = VInt (int_of_bytes P c)
  /\ in_range (size P k) (int_of_bytes P c) = true
  /\ native_order P (le_bytes (size P k) (int_of_bytes P c)) = c.
Proof.
  intros Hk Hs Hl. unfold int_of_bytes. rewrite Hl.
  pose proof (le_unsigned_range (native_order P c)) as Hu.
  rewrite native_order_length, Hl in Hu.
  split; [|split].
  - destruct k; try discriminate; reflexivity.
  - now apply to_signed_in_range.
  - rewrite le_bytes_to_signed.
    rewrite <- Hl at 1. rewrite <- (native_order_length P c).
    now rewrite le_bytes_le_unsigned, native_order_involutive.
Qed.

Lemma decode_run_chunks (k : code) (n : nat) :
  forall bs, decode_run P k n bs = map (decode P k) (chunks (size P k) n bs).
Proof. induction n; intros bs; cbn; [reflexivity|now rewrite IHn]. Qed.

Lemma chunks_length (w n : nat) : forall bs, length (chunks w n bs) = n.
Proof. induction n; intros bs; cbn; [reflexivity|now rewrite IHn]. Qed.

Lemma chunks_whole (w n : nat) :
  forall bs, n * w <= length bs ->
    Forall (fun c => length c = w) (chunks w n bs)
    /\ concat (chunks w n bs) = firstn (n * w) bs.
Proof.
  induction n as [|n IH]; intros bs Hl; cbn [chunks concat Nat.mul].
  - split; [constructor|reflexivity].
  - cbn [Nat.mul] in Hl.
    destruct (IH (skipn w bs)) as [IH1 IH2];
      [rewrite length_skipn; lia|].
    split.
    + constructor; [rewrite length_firstn; lia|exact IH1].
    + now rewrite IH2, firstn_add.
Qed.

Lemma ints_of_runs (k : code) (cs : list (list byte)) :
  int_code k = true ->
  0 < size P k ->
  Forall (fun c => length c = size P k) cs ->
  map (decode P k) cs = map VInt (map (int_of_bytes P) cs)
  /\ forallb (in_range (size P k)) (map (int_of_bytes P) cs) = true
  /\ concat (map (fun z => native_order P (le_bytes (size P k) z))
                 (map (int_of_bytes P) cs)) = concat cs.
Proof.
  intros Hk Hs Hall. induction Hall as [|c cs Hc Hcs IH]; cbn [map forallb concat].
  - repeat split.
  - destruct IH as (IH1 & IH2 & IH3).
    destruct (decode_int_bytes k c Hk Hs Hc) as (D1 & D2 & D3).
    now rewrite D1, D2, D3, IH1, IH2, IH3.
Qed.

(** The integers a run of [n] scalars of an integer code holds: all in
    range, decoded by [struct], and packed back into the same bytes. *)
Lemma ints_of_chunks (k : code) (n : nat) (bs : list byte) :
  int_code k = true ->
  0 < size P k ->
  length bs = n * size P k ->
  let zs := map (int_of_bytes P) (chunks (size P k) n bs) in
  decode_run P k n bs = map VInt zs
  /\ forallb (in_range (size P k)) zs = true
  /\ concat (map (fun z => native_order P (le_bytes (size P k) z)) zs) = bs.
Proof.
  intros Hk Hs Hl zs. unfold zs.
  destruct (chunks_whole (size P k) n bs) as [Hall Hcat]; [lia|].
  rewrite <- Hl, firstn_all in Hcat.
  destruct (ints_of_runs k _ Hk Hs Hall) as (H1 & H2 & H3).
  rewrite decode_run_chunks, H1, H2, H3, Hcat. repeat split.
Qed.

End IntBytes.

(** ** Integer reads in full *)

Lemma chunks_firstn (w n : nat) :
  forall bs, chunks w n (firstn (n * w) bs) = chunks w n bs.
Proof.
  induction n as [|n IH]; intros bs; cbn [chunks Nat.mul]; [reflexivity|].
  rewrite firstn_firstn, Nat.min_l by lia.
  f_equal.
  assert (E : skipn w (firstn (w + n * w) bs) = firstn (n * w) (skipn w bs)).
  { rewrite firstn_add.
    destruct (Nat.le_gt_cases w (length bs)) as [Hle|Hgt].
    - rewrite skipn_app, skipn_all2 by (rewrite length_firstn; lia).
      rewrite length_firstn, Nat.min_l by lia. now rewrite Nat.sub_diag.
    - rewrite !skipn_all2 by (rewrite ?length_app, ?length_firstn, ?length_skipn; lia).
      now rewrite firstn_nil. }
  now rewrite E, IH.
Qed.

Lemma read_back_of_several (zs : list Z) :
  2 <= length zs -> read_back zs = VTuple (map VInt zs).
Proof. destruct zs as [|z [|z' zs]]; cbn; (lia || reflexivity). Qed.

Lemma read_back_is_bare_or_iterable (zs : list Z) :
  zs <> [] ->
  (exists z, read_back zs = VInt z /\ zs = [z])
  \/ (has_iter (read_back zs) = true /\ elements (read_back zs) = map VInt zs).
Proof.
  intros Hne. destruct zs as [|z [|z' zs]]; [congruence| |].
  - left. now exists z.
  - right. split; reflexivity.
Qed.

Lemma map_outcome_convert_ints (r : typed_read) (l : list pyval) :
  int_code (code_of_read r) = true -> map_outcome (convert r) l = Ok l.
Proof.
  intros Hk. rewrite <- (map_outcome_Ok l).
  induction l as [|v l IH]; cbn [map_outcome]; [reflexivity|].
  rewrite IH. destruct r; try discriminate; reflexivity.
Qed.

(** An integer read with the bytes there: the integers of the [N] runs of
    the width, bare for one and a tuple otherwise; each fits the width, and
    packed again they are the bytes that were read. *)
Lemma read_intW_full (P : platform) (w : int_width) (N : nat) (h : file) :
  (w = W8 -> sizeof_long P = 8) ->
  (w = W1 -> N = 1) ->
  1 <= N ->
  closed h = false ->
  bytes_of_width w * N <= remaining h ->
  let k := code_of_read (read_of_width w) in
  let zs := map (int_of_bytes P)
                (chunks (bytes_of_width w) N (skipn (pos h) (content h))) in
  read_intW P w N h = (Ok (read_back zs), set_pos h (pos h + bytes_of_width w * N))
  /\ length zs = N
  /\ forallb (in_range (bytes_of_width w)) zs = true
  /\ size P k = bytes_of_width w
  /\ concat (map (fun z => native_order P (le_bytes (size P k) z)) zs)
     = firstn (bytes_of_width w * N) (skipn (pos h) (content h)).
Proof.
  intros HP H1 HN Hc Hrem k zs.
  set (r := read_of_width w).
  set (bs := firstn (bytes_of_width w * N) (skipn (pos h) (content h))).
  assert (Hw : width r = bytes_of_width w) by (destruct w; reflexivity).
  assert (Hk : int_code k = true) by (destruct w; reflexivity).
  assert (Hsz : size P k = bytes_of_width w).
  { destruct w; try reflexivity. cbn. now apply HP. }
  assert (Hpos : 0 < size P k) by (rewrite Hsz; destruct w; cbn; lia).
  assert (Hlen : length bs = N * size P k).
  { unfold bs. rewrite length_firstn, length_skipn, Hsz.
    unfold remaining in Hrem. lia. }
  assert (Hzs : zs = map (int_of_bytes P) (chunks (size P k) N bs)).
  { unfold zs, bs. rewrite Hsz, (Nat.mul_comm (bytes_of_width w) N).
    now rewrite chunks_firstn. }
  destruct (ints_of_chunks P k N bs Hk Hpos Hlen) as (D1 & D2 & D3).
  cbv zeta in D1, D2, D3. rewrite <- Hzs in D1, D2, D3.
  assert (Hn : length zs = N) by (unfold zs; now rewrite length_map, chunks_length).
  split; [|repeat split; try assumption; now rewrite <- Hsz].
  replace (read_intW P w N) with (run_read P r N) by (destruct w; reflexivity).
  rewrite run_read_one_raw_read by exact Hc. rewrite Hw. fold bs.
  rewrite Nat.min_l by exact Hrem. f_equal.
  rewrite run_read_exact_buffer;
    [ | destruct w; try discriminate; intros _; now apply HP
      | rewrite Hw, Hlen, Hsz; lia
      | destruct w; try discriminate; intros _; now apply H1 ].
  unfold decoded. change (code_of_read r) with k.
  destruct (Nat.eqb_spec N 1) as [->|HN1].
  - cbn [chunks map] in Hzs. rewrite firstn_all2 in Hzs by lia.
    assert (Hd : decode P k bs = VInt (int_of_bytes P bs)).
    { apply decode_int_bytes; try assumption. lia. }
    rewrite Hd, Hzs. unfold r. destruct w; reflexivity.
  - rewrite map_outcome_convert_ints by exact Hk. cbn [and_then].
    rewrite D1, read_back_of_several by lia.
    unfold r. destruct w; reflexivity.
Qed.

Lemma f_write_what_is_there (n q : nat) (h : file) :
  closed h = false ->
  pos h + n <= length (content h) ->
  f_write (firstn n (skipn (pos h) (content h))) (set_pos (set_pos h q) (pos h))
  = (Ok n, set_pos h (pos h + n)).
Proof.
  intros Hc Hn.
  assert (Hl : length (firstn n (skipn (pos h) (content h))) = n).
  { rewrite length_firstn, length_skipn. lia. }
  rewrite f_write_inside by (cbn; exact Hc || lia).
  unfold set_pos. cbn [closed content pos]. rewrite Hl.
  replace (skipn (pos h + n) (content h)) with (skipn n (skipn (pos h) (content h)))
    by (rewrite skipn_skipn; f_equal; lia).
  now rewrite firstn_skipn, firstn_skipn, Hc.
Qed.

(** X5: an integer read with the bytes there returns integers that fit the
    width: every value [z] it returns has
    [-2^(8w-1) <= z <= 2^(8w-1) - 1]. *)
Theorem read_ints_fit_their_width (P : platform) (w : int_width) (N : nat) (h : file) :
  (w = W8 -> sizeof_long P = 8) ->
  (w = W1 -> N = 1) ->
  1 <= N ->
  closed h = false ->
  bytes_of_width w * N <= remaining h ->
  exists zs,
    fst (read_intW P w N h) = Ok (read_back zs)
    /\ length zs = N
    /\ Forall (fun z => (int_min (bytes_of_width w) <= z <= int_max (bytes_of_width w))%Z) zs.
Proof.
  intros HP H1 HN Hc Hrem.
  destruct (read_intW_full P w N h HP H1 HN Hc Hrem) as (E & Hlen & Hr & _).
  eexists. rewrite E. split; [reflexivity|split; [exact Hlen|]].
  apply Forall_forall. intros z Hz.
  rewrite forallb_forall in Hr. specialize (Hr z Hz).
  unfold in_range in Hr. apply andb_prop in Hr as [Hlo Hhi].
  apply Z.leb_le in Hlo. apply Z.leb_le in Hhi. lia.
Qed.

Lemma read_ints_fit_their_width_witness :
  exists zs,
    fst (read_int2 x86_64 2 (mkfile [xff; x7f; x00; x80] 0 false)) = Ok (read_back zs)
    /\ length zs = 2
    /\ Forall (fun z => (-32768 <= z <= 32767)%Z) zs.
Proof.
  apply (read_ints_fit_their_width x86_64 W2 2 (mkfile [xff; x7f; x00; x80] 0 false));
    [discriminate | discriminate | lia | reflexivity | cbn; lia].
Defined.

(** X6: what an integer read returned can be handed to the write of the same
    width as it is (a bare integer, or the tuple): written where the read
    began, it puts back the bytes that were there and ends where the read
    ended, so the file is unchanged. *)
Theorem read_then_write_restores (P : platform) (w : int_width) (N : nat) (h : file) :
  (w = W8 -> sizeof_long P = 8) ->
  (w = W1 -> N = 1) ->
  1 <= N ->
  closed h = false ->
  bytes_of_width w * N <= remaining h ->
  exists v h1,
    read_intW P w N h = (Ok v, h1)
    /\ content h1 = content h
    /\ write_intW P w v (set_pos h1 (pos h)) = (Ok VNone, h1).
Proof.
  intros HP H1 HN Hc Hrem.
  destruct (read_intW_full P w N h HP H1 HN Hc Hrem) as (E & Hlen & Hr & Hsz & Hcat).
  cbv zeta in *.
  set (zs := map (int_of_bytes P)
                 (chunks (bytes_of_width w) N (skipn (pos h) (content h)))) in *.
  exists (read_back zs), (set_pos h (pos h + bytes_of_width w * N)).
  split; [exact E|split; [reflexivity|]].
  destruct (write_intW_is_write_type P w (read_back zs)) as (c & -> & Ec & Hk & _).
  assert (Hne : zs <> []) by (intros Hz; rewrite Hz in Hlen; cbn in Hlen; lia).
  assert (Hpos : 0 < size P (code_of_read (read_of_width w)))
    by (rewrite Hsz; destruct w; cbn; lia).
  rewrite <- Hsz in Hr.
  rewrite (write_type_packs_ints P c _ zs (read_back zs) _ Ec Hk Hpos Hr
             (read_back_is_bare_or_iterable zs Hne)).
  rewrite Hcat. unfold bind.
  rewrite f_write_what_is_there by (exact Hc || (unfold remaining in Hrem; lia)).
  reflexivity.
Qed.

Lemma read_then_write_restores_witness :
  let h := mkfile [x01; xff; x7f; x00; x80; x02] 1 false in
  exists v h1,
    read_int2 x86_64 2 h = (Ok v, h1)
    /\ content h1 = content h
    /\ write_int2 x86_64 v (set_pos h1 1) = (Ok VNone, h1).
Proof.
  apply (read_then_write_restores x86_64 W2 2
           (mkfile [x01; xff; x7f; x00; x80; x02] 1 false));
    [discriminate | discriminate | lia | reflexivity | cbn; lia].
Defined.

(** ** Writes that do not pack *)

Lemma encode_all_ints_out_of_range (P : platform) (k : code) (zs : list Z) :
  int_code k = true ->
  forallb (in_range (size P k)) zs = false ->
  map_outcome (encode P k) (map VInt zs) = Raise StructError.
Proof.
  intros Hk. induction zs as [|z zs IH]; cbn [forallb map map_outcome]; intros Hr.
  - discriminate.
  - destruct (in_range (size P k) z) eqn:Hz.
    + cbn [andb] in Hr.
      assert (E : encode P k (VInt z) = Ok (native_order P (le_bytes (size P k) z)))
        by (destruct k; try discriminate; cbn [encode]; now rewrite Hz).
      rewrite E, (IH Hr). reflexivity.
    + assert (E : encode P k (VInt z) = Raise StructError)
        by (destruct k; try discriminate; cbn [encode]; now rewrite Hz).
      now rewrite E.
Qed.

(** X7: an integer write with a value that does not fit the width raises
    [struct.error], not [IOError], and writes nothing, not even the values
    before the bad one: the handle is as it was (closed or not).  A float
    handed to an integer write is refused in the same way. *)
Theorem write_out_of_range_changes_nothing
        (P : platform) (w : int_width) (zs : list Z) (h : file) :
  (w = W8 -> sizeof_long P = 8) ->
  forallb (in_range (bytes_of_width w)) zs = false ->
  write_intW P w (written zs) h = (Raise StructError, h)
  /\ (forall x, write_intW P w (VFloat x) h = (Raise StructError, h)).
Proof.
  intros HP Hr.
  destruct (write_intW_is_write_type P w (written zs)) as (c & E1 & Ec & Hk & Hsz).
  specialize (Hsz HP). rewrite <- Hsz in Hr.
  split.
  - rewrite E1. unfold write_type, bind, lift.
    destruct zs as [|z [|z' zs]]; [discriminate| |].
    + cbn [written has_iter]. rewrite (struct_pack_one P c _ _ Ec).
      cbn [forallb] in Hr. rewrite andb_true_r in Hr.
      destruct (code_of_read (read_of_width w)); try discriminate;
        cbn [encode]; now rewrite Hr.
    + cbn [written has_iter elements].
      rewrite (struct_pack_run P _ c _ _ Ec eq_refl).
      now rewrite (encode_all_ints_out_of_range P _ _ Hk Hr).
  - intros x.
    destruct (write_intW_is_write_type P w (VFloat x)) as (c' & -> & Ec' & Hk' & _).
    unfold write_type, bind, lift. cbn [has_iter].
    rewrite (struct_pack_one P c' _ _ Ec').
    destruct (code_of_read (read_of_width w)); try discriminate; reflexivity.
Qed.

Lemma write_out_of_range_changes_nothing_witness :
  let h := mkfile [x01; x02; x03] 1 false in
  write_int1 x86_64 (VList [VInt 5; VInt 128]) h = (Raise StructError, h)
  /\ write_int2 x86_64 (VInt 40000) h = (Raise StructError, h).
Proof.
  split.
  - apply (write_out_of_range_changes_nothing x86_64 W1 [5; 128]%Z
             (mkfile [x01; x02; x03] 1 false)); [discriminate | reflexivity].
  - apply (write_out_of_range_changes_nothing x86_64 W2 [40000]%Z
             (mkfile [x01; x02; x03] 1 false)); [discriminate | reflexivity].
Defined.

(** ** Where a write lands *)




(** ** Floats to bits and back *)

Local Open Scope Z_scope.

Section FloatBits.

(** A binary interchange format: [mw] fraction bits and [ew] exponent
    bits, that is precision [mw + 1] and [emax = 2^(ew-1)]. *)
Variables mw ew : Z.
Hypothesis mw_pos : 0 < mw.
Hypothesis ew_big : 1 < ew.

Let prec := mw + 1.
Let emax := 2 ^ (ew - 1).

Lemma bit_fields (s : bool) (e f b : Z) :
  0 <= e < 2 ^ ew ->
  0 <= f < 2 ^ mw ->
  b = (if s then 2 ^ (mw + ew) else 0) + e * 2 ^ mw + f ->
  b mod 2 ^ mw = f
  /\ (b / 2 ^ mw) mod 2 ^ ew = e
  /\ Z.odd (b / 2 ^ (mw + ew)) = s
  /\ 0 <= b < 2 ^ (mw + ew + 1).
Proof.
  intros He Hf Hb0.
  assert (HM : 0 < 2 ^ mw) by (apply Z.pow_pos_nonneg; lia).
  assert (HE : 0 < 2 ^ ew) by (apply Z.pow_pos_nonneg; lia).
  assert (HME : 2 ^ (mw + ew) = 2 ^ ew * 2 ^ mw)
    by (rewrite Z.pow_add_r by lia; lia).
  assert (HME1 : 2 ^ (mw + ew + 1) = 2 * (2 ^ ew * 2 ^ mw))
    by (rewrite Z.pow_add_r, HME by lia; change (2 ^ 1) with 2; lia).
  set (sb := if s then 1 else 0).
  assert (Hsb : 0 <= sb <= 1) by (unfold sb; destruct s; lia).
  assert (Hb : b = f + (e + sb * 2 ^ ew) * 2 ^ mw)
    by (rewrite Hb0; unfold sb; rewrite HME; destruct s; lia).
  assert (Hq : b / 2 ^ mw = e + sb * 2 ^ ew).
  { rewrite Hb, Z_div_plus_full, Z.div_small by lia. lia. }
  repeat split.
  - rewrite Hb, Z_mod_plus_full. apply Z.mod_small. lia.
  - rewrite Hq, Z_mod_plus_full. apply Z.mod_small. lia.
  - replace b with ((f + e * 2 ^ mw) + sb * 2 ^ (mw + ew)) by (rewrite Hb, HME; lia).
    rewrite Z_div_plus_full, Z.div_small by nia.
    unfold sb. now destruct s.
  - rewrite Hb. nia.
  - rewrite Hb, HME1. nia.
Qed.

(** A mantissa and exponent that are canonical for the format are either
    subnormal, at the least exponent, or normal, with a biased exponent
    between 1 and [2^ew - 2]. *)
Lemma bounded_cases (m : positive) (e : Z) :
  bounded prec emax m e = true ->
  (Zpos m < 2 ^ mw /\ e = 1 - bias ew - mw)
  \/ (2 ^ mw <= Zpos m < 2 * 2 ^ mw /\ 1 <= e + bias ew + mw <= 2 ^ ew - 2).
Proof.
  unfold bounded, canonical_mantissa, fexp, emin, bias. fold emax. intros H.
  apply andb_prop in H as [Hc He]. apply Z.eqb_eq in Hc. apply Z.leb_le in He.
  rewrite digits2_pos_log2 in Hc.
  assert (HM : 0 < 2 ^ mw) by (apply Z.pow_pos_nonneg; lia).
  assert (HE : 2 ^ ew = 2 * emax).
  { unfold emax. replace ew with (1 + (ew - 1)) at 1 by lia.
    rewrite Z.pow_add_r by lia. reflexivity. }
  assert (Hemax : 0 < emax) by (unfold emax; apply Z.pow_pos_nonneg; lia).
  assert (Hm : 0 < Zpos m) by lia.
  unfold prec in *.
  destruct (Z.lt_ge_cases (Zpos m) (2 ^ mw)) as [Hlt|Hge].
  - left. split; [exact Hlt|].
    apply Z.log2_lt_pow2 in Hlt; lia.
  - right.
    apply Z.log2_le_pow2 in Hge; [|lia].
    assert (Hlog : Z.log2 (Zpos m) = mw) by lia.
    pose proof (Z.log2_spec (Zpos m) Hm) as Hspec. rewrite Hlog in Hspec.
    rewrite Z.pow_succ_r in Hspec by lia. lia.
Qed.

Lemma float_of_bits_of_float (x : spec_float) :
  valid_binary prec emax x = true ->
  float_of_bits mw ew (bits_of_float mw ew x) = x
  /\ 0 <= bits_of_float mw ew x < 2 ^ (mw + ew + 1).
Proof.
  assert (HM : 0 < 2 ^ mw) by (apply Z.pow_pos_nonneg; lia).
  assert (HE : 4 <= 2 ^ ew).
  { change 4 with (2 ^ 2). apply Z.pow_le_mono_r; lia. }
  assert (Hhalf : 0 < 2 ^ (mw - 1) < 2 ^ mw).
  { split; [apply Z.pow_pos_nonneg; lia|apply Z.pow_lt_mono_r; lia]. }
  intros Hv. destruct x as [s|s| |s m e]; cbn [bits_of_float valid_binary] in *.
  - destruct (bit_fields s 0 0 (if s then 2 ^ (mw + ew) else 0))
      as (F1 & F2 & F3 & F4); try lia.
    split; [|exact F4]. unfold float_of_bits. rewrite F1, F2, F3. reflexivity.
  - destruct (bit_fields s (2 ^ ew - 1) 0
                ((if s then 2 ^ (mw + ew) else 0) + (2 ^ ew - 1) * 2 ^ mw))
      as (F1 & F2 & F3 & F4); try lia.
    split; [|exact F4]. unfold float_of_bits. rewrite F1, F2, F3.
    destruct (Z.eqb_spec (2 ^ ew - 1) 0); [lia|].
    now rewrite Z.eqb_refl.
  - destruct (bit_fields false (2 ^ ew - 1) (2 ^ (mw - 1))
                ((2 ^ ew - 1) * 2 ^ mw + 2 ^ (mw - 1)))
      as (F1 & F2 & F3 & F4); try lia.
    split; [|exact F4]. unfold float_of_bits. rewrite F1, F2.
    destruct (Z.eqb_spec (2 ^ ew - 1) 0); [lia|].
    rewrite Z.eqb_refl.
    destruct (Z.eqb_spec (2 ^ (mw - 1)) 0); [lia|reflexivity].
  - destruct (bounded_cases m e Hv) as [[Hm He]|[Hm He]].
    + destruct (Z.ltb_spec (Zpos m) (2 ^ mw)); [|lia].
      destruct (bit_fields s 0 (Zpos m) ((if s then 2 ^ (mw + ew) else 0) + Zpos m))
        as (F1 & F2 & F3 & F4); try lia.
      split; [|exact F4]. unfold float_of_bits. rewrite F1, F2, F3.
      cbn [Z.eqb]. now rewrite He.
    + destruct (Z.ltb_spec (Zpos m) (2 ^ mw)); [lia|].
      destruct (bit_fields s (e + bias ew + mw) (Zpos m - 2 ^ mw)
                  ((if s then 2 ^ (mw + ew) else 0) + (e + bias ew + mw) * 2 ^ mw
                   + (Zpos m - 2 ^ mw)))
        as (F1 & F2 & F3 & F4); try lia.
      split; [|exact F4]. unfold float_of_bits. rewrite F1, F2, F3.
      destruct (Z.eqb_spec (e + bias ew + mw) 0); [lia|].
      destruct (Z.eqb_spec (e + bias ew + mw) (2 ^ ew - 1)); [lia|].
      replace (Zpos m - 2 ^ mw + 2 ^ mw) with (Zpos m) by lia.
      f_equal. lia.
Qed.

End FloatBits.

Local Close Scope Z_scope.

(** ** Writing values and reading them back, in general *)

Section WriteThenRead.

Variable P : platform.

(** [g] gives the bytes [struct] packs a value into under code [k], [d0] what
    it unpacks from them. *)
Lemma pack_unpack_values (k : code) (vs : list pyval)
      (g : pyval -> list byte) (d0 : pyval -> pyval) :
  (forall v, In v vs ->
     encode P k v = Ok (g v) /\ length (g v) = size P k /\ decode P k (g v) = d0 v) ->
  map_outcome (encode P k) vs = Ok (map g vs)
  /\ decode_run P k (length vs) (concat (map g vs)) = map d0 vs
  /\ length (concat (map g vs)) = length vs * size P k.
Proof.
  induction vs as [|v vs IH]; intros H; cbn [map map_outcome concat length decode_run].
  - repeat split.
  - destruct (H v (or_introl eq_refl)) as (E & L & D).
    destruct IH as (I1 & I2 & I3); [intros u Hu; apply H; now right|].
    rewrite E, I1. cbn [and_then].
    set (rest := concat (map g vs)) in *.
    assert (F : firstn (size P k) (g v ++ rest) = g v).
    { rewrite <- L, firstn_app, firstn_all, Nat.sub_diag, firstn_O. apply app_nil_r. }
    assert (S : skipn (size P k) (g v ++ rest) = rest).
    { rewrite <- L. apply skipn_length_app. }
    rewrite F, S, D, I2, length_app, I3, L.
    repeat split; cbn [Nat.mul]; lia.
Qed.

Lemma map_outcome_map {A B C} (f : B -> outcome C) (e : A -> B) (d : A -> C) (l : list A) :
  (forall a, In a l -> f (e a) = Ok (d a)) ->
  map_outcome f (map e l) = Ok (map d l).
Proof.
  induction l as [|a l IH]; intros H; cbn [map map_outcome]; [reflexivity|].
  rewrite (H a (or_introl eq_refl)), IH by (intros b Hb; apply H; now right).
  reflexivity.
Qed.

Lemma write_then_read_values (r : typed_read) (c : ascii) (wv : pyval)
      (vs : list pyval) (g : pyval -> list byte) (d0 d : pyval -> pyval) (h : file) :
  code_of_ascii c = Some (code_of_read r) ->
  r <> Rint1 ->
  (r = Rint8 -> sizeof_long P = 8) ->
  size P (code_of_read r) = width r ->
  closed h = false ->
  vs <> [] ->
  (has_iter wv = false /\ vs = [wv]) \/ (has_iter wv = true /\ elements wv = vs) ->
  (forall v, In v vs ->
     encode P (code_of_read r) v = Ok (g v)
     /\ length (g v) = size P (code_of_read r)
     /\ decode P (code_of_read r) (g v) = d0 v
     /\ convert r (d0 v) = Ok (d v)
     /\ values (d v) = [d v]) ->
  exists v h',
    write_type P wv (String c "") h = (Ok VNone, h')
    /\ pos h' = pos h + width r * length vs
    /\ run_read P r (length vs) (set_pos h' (pos h)) = (Ok v, h')
    /\ values v = map d vs.
Proof.
  intros Ec Hr1 HP Hsz Hc Hne Hwv Hall.
  set (k := code_of_read r) in *.
  set (bs := concat (map g vs)).
  destruct (pack_unpack_values k vs g d0) as (Penc & Pdec & Plen).
  { intros v Hv. destruct (Hall v Hv) as (E & L & D & _). auto. }
  fold bs in Pdec, Plen.
  assert (Hlen : length bs = width r * length vs) by (rewrite Plen, Hsz; lia).
  assert (Hpack : write_type P wv (String c "") h
                  = bind (f_write bs) (fun _ => ret VNone) h).
  { unfold write_type. destruct Hwv as [[Hi ->]|[Hi He]]; rewrite Hi.
    - unfold bind at 1, lift. rewrite (struct_pack_one P c k _ Ec).
      cbn [map map_outcome and_then] in Penc.
      destruct (encode P k wv) as [b|e]; [|discriminate].
      unfold bs. cbn [map concat]. rewrite app_nil_r.
      cbn [and_then] in Penc. now inversion Penc.
    - rewrite He. unfold bind at 1, lift.
      rewrite (struct_pack_run P (length vs) c k vs Ec eq_refl), Penc.
      reflexivity. }
  destruct (f_read_after_f_write bs h Hc) as [Hwr Hrd].
  set (h' := snd (f_write bs h)) in *.
  assert (Hc' : closed (set_pos h' (pos h)) = false)
    by exact (proj1 (proj2 (f_write_open bs h Hc))).
  assert (Hrun : run_read P r (length vs) (set_pos h' (pos h))
                 = (decoded P r (length vs) bs, h')).
  { rewrite run_read_one_raw_read by exact Hc'.
    rewrite f_read_open in Hrd by exact Hc'. rewrite Hlen in Hrd.
    injection Hrd as Hbuf Hh.
    change (pos (set_pos h' (pos h))) with (pos h).
    change (content (set_pos h' (pos h))) with (content h').
    rewrite Hbuf, Hh.
    rewrite run_read_exact_buffer; [reflexivity|exact HP|exact Hlen|congruence]. }
  assert (Hdec : exists v, decoded P r (length vs) bs = Ok v /\ values v = map d vs).
  { unfold decoded. fold k.
    destruct (Nat.eqb_spec (length vs) 1) as [H1|H1].
    - destruct vs as [|v [|v' vs']]; try discriminate.
      destruct (Hall v (or_introl eq_refl)) as (_ & _ & D & Cv & V).
      unfold bs. cbn [map concat]. rewrite app_nil_r.
      change (code_of_read r) with k in D. rewrite D, Cv.
      eexists. split; [reflexivity|exact V].
    - rewrite Pdec.
      rewrite (map_outcome_map (convert r) d0 d vs)
        by (intros v Hv; now destruct (Hall v Hv) as (_ & _ & _ & Cv & _)).
      cbn [and_then]. eexists. split; [reflexivity|].
      destruct r; reflexivity. }
  destruct Hdec as (v & Hv & Hvals).
  exists v, h'. rewrite Hpack, Hrun, Hv. unfold bind. rewrite Hwr.
  repeat split; try assumption.
  unfold h'. rewrite (proj2 (proj2 (f_write_open bs h Hc))). lia.
Qed.

End WriteThenRead.

(** ** Floats written and read back *)

Lemma round_float_valid (prec emax : Z) (x : spec_float) :
  valid_binary prec emax x = true -> round_float prec emax x = x.
Proof.
  destruct x; cbn [valid_binary round_float]; try reflexivity.
  apply binary_round_bounded.
Qed.

Lemma written_floats_is_bare_or_iterable (xs : list spec_float) :
  xs <> [] ->
  (has_iter (written_floats xs) = false /\ map VFloat xs = [written_floats xs])
  \/ (has_iter (written_floats xs) = true
      /\ elements (written_floats xs) = map VFloat xs).
Proof.
  intros Hne. destruct xs as [|x [|x' xs]]; [congruence| |].
  - left. split; reflexivity.
  - right. split; reflexivity.
Qed.

Lemma encode_decode_double (P : platform) (x : spec_float) :
  valid_binary 53 1024 x = true ->
  let g := native_order P (le_bytes 8 (bits_of_float 52 11 x)) in
  encode P Cd (VFloat x) = Ok g /\ length g = 8 /\ decode P Cd g = VFloat x.
Proof.
  intros Hv g. unfold g.
  destruct (float_of_bits_of_float 52 11 ltac:(lia) ltac:(lia) x Hv) as [Hx Hb].
  split; [|split].
  - cbn [encode as_float]. now rewrite round_float_valid.
  - now rewrite native_order_length, le_bytes_length.
  - cbn [decode]. rewrite native_order_involutive, le_unsigned_le_bytes.
    rewrite Z.mod_small by exact Hb. now rewrite Hx.
Qed.

Lemma encode_decode_single (P : platform) (x : spec_float) :
  valid_binary 24 128 x = true ->
  let g := native_order P (le_bytes 4 (bits_of_float 23 8 x)) in
  encode P Cf (VFloat x) = Ok g /\ length g = 4 /\ decode P Cf g = VFloat x.
Proof.
  intros Hv g. unfold g.
  destruct (float_of_bits_of_float 23 8 ltac:(lia) ltac:(lia) x Hv) as [Hx Hb].
  split; [|split].
  - cbn [encode as_float]. now rewrite round_float_valid.
  - now rewrite native_order_length, le_bytes_length.
  - cbn [decode]. rewrite native_order_involutive, le_unsigned_le_bytes.
    rewrite Z.mod_small by exact Hb. now rewrite Hx.
Qed.

(** X9: every double written with [write_double] (bare, or several in a
    list) is read back by [read_double] with the count, from where the
    write began: the same floats in the same order, 8 bytes each, and the
    read ends where the write ended. *)
Theorem double_round_trip (P : platform) (xs : list spec_float) (h : file) :
  closed h = false ->
  xs <> [] ->
  forallb (valid_binary 53 1024) xs = true ->
  exists v h',
    write_double P (written_floats xs) h = (Ok VNone, h')
    /\ pos h' = pos h + 8 * length xs
    /\ read_double P (length xs) (set_pos h' (pos h)) = (Ok v, h')
    /\ values v = map VFloat xs.
Proof.
  intros Hc Hne Hv.
  destruct (write_then_read_values P Rdouble "d"%char (written_floats xs)
              (map VFloat xs)
              (fun v => match v with
                        | VFloat x => native_order P (le_bytes 8 (bits_of_float 52 11 x))
                        | _ => []
                        end)
              (fun v => v) (fun v => v) h)
    as (v & h' & Hw & Hp & Hr & Hvals);
    try (reflexivity || discriminate || assumption).
  - destruct xs; [congruence|discriminate].
  - destruct (written_floats_is_bare_or_iterable xs Hne) as [[H1 H2]|[H1 H2]];
      [left|right]; auto.
  - intros v Hin. apply in_map_iff in Hin as (x & <- & Hx).
    rewrite forallb_forall in Hv.
    destruct (encode_decode_double P x (Hv x Hx)) as (E & L & D).
    repeat split; assumption.
  - exists v, h'. rewrite length_map, map_id in *. repeat split; assumption.
Qed.

Lemma double_round_trip_witness :
  let h := mkfile [x07; x07] 1 false in
  let xs := [S754_finite false 6755399441055744 (-52); S754_zero true] in
  exists v h',
    write_double x86_64 (written_floats xs) h = (Ok VNone, h')
    /\ pos h' = 1 + 8 * 2
    /\ read_double x86_64 2 (set_pos h' 1) = (Ok v, h')
    /\ values v = map VFloat xs.
Proof.
  apply (double_round_trip x86_64
           [S754_finite false 6755399441055744 (-52); S754_zero true]
           (mkfile [x07; x07] 1 false));
    [reflexivity | discriminate | reflexivity].
Defined.

(** X10: every single-precision number written with [write_float] (bare, or
    several in a list) is read back by [read_float] with the count, under
    each of its result types: the same numbers in the same order, 4 bytes
    each, held as Python floats, as [numpy.float32] ([read_real4]) or as
    [numpy.float64] ([read_real8]). *)
Theorem single_round_trip (P : platform) (d : dtype) (xs : list spec_float) (h : file) :
  closed h = false ->
  xs <> [] ->
  forallb (valid_binary 24 128) xs = true ->
  exists v h',
    write_float P (written_floats xs) h = (Ok VNone, h')
    /\ pos h' = pos h + 4 * length xs
    /\ read_float P (length xs) d (set_pos h' (pos h)) = (Ok v, h')
    /\ values v = map (boxed d) xs.
Proof.
  intros Hc Hne Hv.
  destruct (write_then_read_values P (Rfloat d) "f"%char (written_floats xs)
              (map VFloat xs)
              (fun v => match v with
                        | VFloat x => native_order P (le_bytes 4 (bits_of_float 23 8 x))
                        | _ => []
                        end)
              (fun v => v)
              (fun v => match v with
                        | VFloat x => boxed d x
                        | _ => v
                        end) h)
    as (v & h' & Hw & Hp & Hr & Hvals);
    try (reflexivity || discriminate || assumption).
  - destruct xs; [congruence|discriminate].
  - destruct (written_floats_is_bare_or_iterable xs Hne) as [[H1 H2]|[H1 H2]];
      [left|right]; auto.
  - intros v Hin. apply in_map_iff in Hin as (x & <- & Hx).
    rewrite forallb_forall in Hv.
    destruct (encode_decode_single P x (Hv x Hx)) as (E & L & D).
    repeat split; try assumption.
    + cbn [convert call_dtype as_float].
      destruct d; cbn [boxed]; try reflexivity.
      now rewrite round_float_valid by (apply Hv, Hx).
    + destruct d; reflexivity.
  - exists v, h'. rewrite length_map, map_map in *. repeat split; assumption.
Qed.

Lemma single_round_trip_witness :
  let h := mkfile [] 0 false in
  let xs := [S754_finite true 12582912 (-23); S754_infinity false] in
  exists v h',
    write_float x86_64 (written_floats xs) h = (Ok VNone, h')
    /\ pos h' = 0 + 4 * 2
    /\ read_real4 x86_64 2 (set_pos h' 0) = (Ok v, h')
    /\ values v = map VFloat32 xs.
Proof.
  apply (single_round_trip x86_64 np_float32
           [S754_finite true 12582912 (-23); S754_infinity false]
           (mkfile [] 0 false));
    [reflexivity | discriminate | reflexivity].
Defined.

(** ** A count of zero *)

(** X11: called with a count of 0, every typed read but [read_int1] returns
    the empty sequence (a tuple, or a list for the float reads) and leaves
    the handle as it is, wherever it stands and whatever is left. *)
Theorem zero_count_reads_nothing (P : platform) (r : typed_read) (h : file) :
  r <> Rint1 ->
  closed h = false ->
  run_read P r 0 h = (Ok (sequence_of r []), h).
Proof.
  intros Hr Hc.
  assert (Hh : set_pos h (pos h + Nat.min 0 (remaining h)) = h).
  { destruct h as [c p cl]. unfold set_pos. cbn. now rewrite Nat.add_0_r. }
  destruct r; try congruence; unfold_reads; cbn [Nat.eqb Nat.mul];
    unfold bind; rewrite f_read_open by exact Hc; rewrite Hh;
    cbn [firstn]; unfold lift at 1;
    match goal with
    | |- context [unpack P (format_d 0 ++ String ?c "") []] =>
        let k := eval cbv in (code_of_ascii c) in
        match k with
        | Some ?k' => rewrite (unpack_run_exact P 0 c k' []) by reflexivity
        end
    end; reflexivity.
Qed.

Lemma zero_count_reads_nothing_witness :
  let h := mkfile [x01; x02] 1 false in
  run_read x86_64 Rint8 0 h = (Ok (VTuple []), h)
  /\ run_read x86_64 Rreal4 0 h = (Ok (VList []), h).
Proof.
  split.
  - apply (zero_count_reads_nothing x86_64 Rint8 (mkfile [x01; x02] 1 false));
      [discriminate | reflexivity].
  - apply (zero_count_reads_nothing x86_64 Rreal4 (mkfile [x01; x02] 1 false));
      [discriminate | reflexivity].
Defined.

(** ** Text that is not ASCII *)

Lemma decode_high_byte (enc : encoding) (b : byte) :
  enc <> latin_1 ->
  (128 <= Byte.to_N b)%N ->
  decode_byte enc b = Raise UnicodeDecodeError.
Proof.
  intros He Hb. unfold decode_byte.
  destruct (N.ltb_spec (Byte.to_N b) 128); [lia|].
  destruct enc; congruence.
Qed.

Lemma read_line_to_bad_byte (enc : encoding) (b : byte) (rest : list byte) :
  enc <> latin_1 ->
  (128 <= Byte.to_N b)%N ->
  forall (line : string) (pre : list byte) (s : string),
    plain_line line = true ->
    bind (read_char enc) (readline_loop enc s)
         (mkfile (pre ++ bytes_of_string line ++ b :: rest) (length pre) false)
    = (Raise UnicodeDecodeError,
       mkfile (pre ++ bytes_of_string line ++ b :: rest)
              (length pre + String.length line + 1) false).
Proof.
  intros He Hb. induction line as [|c r IH]; intros pre s Hplain.
  - unfold bind. rewrite read_char_after_prefix.
    cbn [bytes_of_string app firstn bytes_decode length Nat.min String.length].
    rewrite (decode_high_byte enc b He Hb). cbn [and_then].
    now rewrite Nat.add_0_r.
  - cbn [plain_line] in Hplain.
    apply andb_prop in Hplain as [Hc Hr]. apply andb_prop in Hc as [Hc Hnl].
    unfold bind. rewrite read_char_after_prefix.
    cbn [bytes_of_string app firstn bytes_decode and_then length Nat.min].
    rewrite (decode_plain_byte enc c Hc). cbn [and_then append].
    rewrite readline_loop_step.
    assert (Hgo : line_ended (String c "") = false).
    { unfold line_ended, newline. cbn [String.eqb].
      apply negb_true_iff in Hnl. rewrite Hnl. reflexivity. }
    rewrite Hgo.
    specialize (IH (pre ++ [byte_of_ascii c])%list (s ++ String c "") Hr).
    unfold bind in IH. rewrite <- app_assoc in IH. cbn [app] in IH.
    rewrite length_app in IH. cbn [length] in IH.
    rewrite IH. cbn [String.length]. do 2 f_equal. lia.
Qed.

(** X12: under UTF-8 (the default) or ASCII, [readline] decodes byte by
    byte, so a byte of 128 or more in the line makes it raise
    [UnicodeDecodeError]: the characters read so far are not returned and
    the handle is left just behind the offending byte. *)
Theorem readline_raises_at_high_byte
        (enc : encoding) (pre : list byte) (line : string) (b : byte) (rest : list byte) :
  enc <> latin_1 ->
  plain_line line = true ->
  (128 <= Byte.to_N b)%N ->
  readline enc (mkfile (pre ++ bytes_of_string line ++ b :: rest) (length pre) false)
  = (Raise UnicodeDecodeError,
     mkfile (pre ++ bytes_of_string line ++ b :: rest)
            (length pre + String.length line + 1) false).
Proof.
  intros He Hplain Hb. unfold readline.
  exact (read_line_to_bad_byte enc b rest He Hb line pre "" Hplain).
Qed.

(** The UTF-8 bytes of "caf", an e with an acute accent, and a newline. *)
Lemma readline_raises_at_high_byte_witness :
  let data := [x63; x61; x66; xc3; xa9; x0a] in
  readline utf_8 (mkfile data 0 false) = (Raise UnicodeDecodeError, mkfile data 4 false).
Proof.
  apply (readline_raises_at_high_byte utf_8 [] "caf" xc3 [xa9; x0a]);
    [discriminate | reflexivity | cbn; lia].
Defined.

(** ** Text written and read back *)

Lemma str_encode_plain (enc : encoding) (line : string) :
  plain_line line = true -> str_encode enc line = inr (bytes_of_string line).
Proof.
  induction line as [|c r IH]; cbn [plain_line str_encode bytes_of_string];
    [reflexivity|].
  intros H. apply andb_prop in H as [Hc Hr]. apply andb_prop in Hc as [Hc _].
  rewrite (IH Hr). unfold encode_char. rewrite Hc. now destruct enc.
Qed.

Lemma str_encode_app (enc : encoding) (a b : string) (x y : list byte) :
  str_encode enc a = inr x ->
  str_encode enc b = inr y ->
  str_encode enc (a ++ b) = inr (x ++ y)%list.
Proof.
  revert x. induction a as [|c r IH]; intros x Ha Hb; cbn [append str_encode] in *.
  - inversion Ha. exact Hb.
  - destruct (encode_char enc c) as [e|bc]; [discriminate|].
    destruct (str_encode enc r) as [e|br]; [discriminate|].
    inversion Ha; subst. rewrite (IH br eq_refl Hb). now rewrite app_assoc.
Qed.

Lemma str_encode_utf_8_total (s : string) : exists bs, str_encode utf_8 s = inr bs.
Proof.
  induction s as [|c r [bs IH]]; cbn [str_encode]; [now exists []|].
  rewrite IH. unfold encode_char. destruct (N_of_ascii c <? 128)%N; eexists; reflexivity.
Qed.

Lemma f_write_then_position (bs : list byte) (h : file) :
  closed h = false ->
  0 < length bs ->
  exists before,
    length before = pos h
    /\ f_write bs h
       = (Ok (length bs),
          mkfile (before ++ bs ++ skipn (pos h + length bs) (content h))
                 (pos h + length bs) false).
Proof.
  intros Hc Hne. unfold f_write. rewrite Hc.
  destruct bs as [|b bs]; [cbn in Hne; lia|].
  eexists. split; [|reflexivity].
  rewrite length_app, length_firstn, repeat_length. lia.
Qed.

(** X13: a line of ASCII text written with [write], newline included, is
    what [readline] returns from where the write began, under every
    encoding; and the line read ends where the write ended. *)
Theorem write_line_then_readline (enc : encoding) (line : string) (h : file) :
  plain_line line = true ->
  closed h = false ->
  exists h',
    write (Text (line ++ newline)) enc h = (inr (Ok VNone), h')
    /\ pos h' = pos h + String.length line + 1
    /\ readline enc (set_pos h' (pos h)) = (Ok (line ++ newline), h').
Proof.
  intros Hplain Hc.
  assert (He : str_encode enc (line ++ newline)
               = inr (bytes_of_string line ++ [x0a])%list).
  { apply str_encode_app; [now apply str_encode_plain|].
    cbn. now destruct enc. }
  assert (Hlen : length (bytes_of_string line) = String.length line)
    by (clear; induction line; cbn; congruence).
  destruct (f_write_then_position (bytes_of_string line ++ [x0a]) h Hc)
    as (before & Hb & Hw); [rewrite length_app; cbn; lia|].
  unfold write. rewrite He. unfold bind, ret. rewrite Hw.
  rewrite length_app, Hlen. cbn [length].
  eexists. split; [reflexivity|]. cbn [pos]. split; [lia|].
  unfold set_pos. cbn [content pos closed]. rewrite <- Hb.
  rewrite <- app_assoc. cbn [app].
  pose proof (read_line_from enc
                (x0a :: skipn (length before + (String.length line + 1)) (content h))
                ltac:(right; eexists; reflexivity) line before "" Hplain) as Hr.
  unfold readline. refine (eq_trans Hr _). cbn [line_end append].
  do 2 f_equal.
  assert (Hl2 : String.length (line ++ newline) = String.length line + 1)
    by (clear; induction line; cbn; congruence).
  rewrite Hl2. lia.
Qed.

Lemma write_line_then_readline_witness :
  let h := mkfile [x41; x42; x43; x44; x45; x46; x47] 1 false in
  exists h',
    write (Text ("ok" ++ newline)) utf_8 h = (inr (Ok VNone), h')
    /\ pos h' = 1 + 2 + 1
    /\ readline utf_8 (set_pos h' 1) = (Ok ("ok" ++ newline), h').
Proof.
  apply (write_line_then_readline utf_8 "ok"
           (mkfile [x41; x42; x43; x44; x45; x46; x47] 1 false));
    reflexivity.
Defined.

Lemma utf_8_lead_byte (c : ascii) :
  (128 <= N_of_ascii c)%N ->
  exists b1 b2, encode_char utf_8 c = inr [b1; b2] /\ (128 <= Byte.to_N b1)%N.
Proof.
  intros Hc. unfold encode_char.
  destruct (N.ltb_spec (N_of_ascii c) 128); [lia|].
  eexists. eexists. split; [reflexivity|].
  pose proof (N_ascii_bounded c) as Hb.
  pose proof (Z_of_byte_of_Z (192 + Z.of_N (N_of_ascii c) / 64)) as E.
  assert (0 <= Z.of_N (N_of_ascii c) / 64 <= 3)%Z.
  { split; [apply Z.div_pos; lia|].
    apply Z.lt_succ_r. apply Z.div_lt_upper_bound; lia. }
  rewrite Z.mod_small in E by lia. unfold Z_of_byte in E. lia.
Qed.

Lemma bytes_of_string_app (a b : string) :
  bytes_of_string (a ++ b) = (bytes_of_string a ++ bytes_of_string b)%list.
Proof. induction a; cbn; [reflexivity|now rewrite IHa]. Qed.

Lemma bytes_of_string_length (s : string) :
  length (bytes_of_string s) = String.length s.
Proof. induction s; cbn; congruence. Qed.

Lemma string_length_app (a b : string) :
  String.length (a ++ b) = String.length a + String.length b.
Proof. induction a; cbn; congruence. Qed.

Lemma lines_text_plain (ls : list string) :
  forallb plain_line ls = true ->
  str_encode utf_8 (lines_text ls) = inr (bytes_of_string (lines_text ls)).
Proof.
  induction ls as [|l ls IH]; intros Hp; [reflexivity|].
  cbn [forallb] in Hp. apply andb_prop in Hp as [Hl Hls].
  cbn [lines_text]. rewrite !bytes_of_string_app.
  apply str_encode_app; [now apply str_encode_plain|].
  apply str_encode_app; [reflexivity|now apply IH].
Qed.

(** Complete plain lines are read one per call. *)
Lemma readlines_complete (enc : encoding) (tail : list byte) :
  forall (ls : list string) (pre : list byte),
    forallb plain_line ls = true ->
    readlines enc (length ls)
      (mkfile (pre ++ bytes_of_string (lines_text ls) ++ tail) (length pre) false)
    = (Ok (map (fun l => l ++ newline) ls),
       mkfile (pre ++ bytes_of_string (lines_text ls) ++ tail)
              (length pre + String.length (lines_text ls)) false).
Proof.
  induction ls as [|l ls IH]; intros pre Hp.
  - cbn. now rewrite Nat.add_0_r.
  - cbn [forallb] in Hp. apply andb_prop in Hp as [Hl Hls].
    cbn [length readlines lines_text map].
    rewrite !bytes_of_string_app.
    change (bytes_of_string newline) with [x0a].
    rewrite <- !app_assoc. cbn [app].
    assert (R : readline enc
                  (mkfile (pre ++ bytes_of_string l
                           ++ x0a :: bytes_of_string (lines_text ls) ++ tail)
                          (length pre) false)
                = (Ok (l ++ newline),
                   mkfile (pre ++ bytes_of_string l
                           ++ x0a :: bytes_of_string (lines_text ls) ++ tail)
                          (length pre + String.length (l ++ newline)) false))
      by exact (read_line_from enc (x0a :: bytes_of_string (lines_text ls) ++ tail)
                  (or_intror (ex_intro _ _ eq_refl)) l pre "" Hl).
    unfold bind at 1. rewrite R.
    specialize (IH (pre ++ bytes_of_string l ++ [x0a])%list Hls).
    rewrite <- !app_assoc in IH. cbn [app] in IH.
    rewrite !length_app in IH. cbn [length] in IH.
    rewrite bytes_of_string_length in IH.
    rewrite !string_length_app. cbn [String.length newline].
    unfold bind. rewrite IH. unfold ret. do 2 f_equal. lia.
Qed.

(** Calls after the one that raises are not reached. *)
Lemma readlines_then_raise (enc : encoding) (e : exn) (h2 : file) :
  forall (n m : nat) (h h1 : file) (ls : list string),
    readlines enc n h = (Ok ls, h1) ->
    readline enc h1 = (Raise e, h2) ->
    n < m ->
    readlines enc m h = (Raise e, h2).
Proof.
  induction n as [|n IH]; intros m h h1 ls Hn Hr Hm;
    (destruct m as [|m]; [lia|]); cbn [readlines] in *.
  - unfold ret in Hn. inversion Hn; subst. unfold bind. now rewrite Hr.
  - unfold bind in *. destruct (readline enc h) as [[l|e'] g]; [|discriminate].
    destruct (readlines enc n g) as [[ls'|e'] g'] eqn:En; [|discriminate].
    unfold ret in Hn. inversion Hn; subst.
    rewrite (IH m g h1 ls' En Hr) by lia. reflexivity.
Qed.

(** X14: text in which complete ASCII lines and then ASCII characters
    without a newline come before a character of code 128 to 255 is written
    by [write] under UTF-8 without complaint, but cannot be read back with
    [readline]: read from where the write began, the complete lines before
    the character are returned, and the call that reaches the character
    raises [UnicodeDecodeError] and leaves the handle behind the first of
    the character's two bytes; so does every series of calls that goes that
    far. *)
Theorem non_ascii_text_is_not_read_back
        (ls : list string) (line : string) (c : ascii) (rest : string) (h : file) :
  forallb plain_line ls = true ->
  plain_line line = true ->
  (128 <= N_of_ascii c)%N ->
  closed h = false ->
  let text := lines_text ls ++ line ++ String c rest in
  let k := String.length (lines_text ls) in
  exists h',
    write (Text text) utf_8 h = (inr (Ok VNone), h')
    /\ readlines utf_8 (length ls) (set_pos h' (pos h))
       = (Ok (map (fun l => l ++ newline) ls), set_pos h' (pos h + k))
    /\ readline utf_8 (set_pos h' (pos h + k))
       = (Raise UnicodeDecodeError, set_pos h' (pos h + k + String.length line + 1))
    /\ (forall n, length ls < n ->
        readlines utf_8 n (set_pos h' (pos h))
        = (Raise UnicodeDecodeError,
           set_pos h' (pos h + k + String.length line + 1))).
Proof.
  intros Hls Hplain Hc Hopen text k.
  destruct (utf_8_lead_byte c Hc) as (b1 & b2 & Ec & Hb1).
  destruct (str_encode_utf_8_total rest) as (br & Er).
  set (pl := bytes_of_string (lines_text ls)).
  assert (He : str_encode utf_8 text
               = inr (pl ++ bytes_of_string line ++ b1 :: b2 :: br)%list).
  { apply str_encode_app; [now apply lines_text_plain|].
    apply str_encode_app; [now apply str_encode_plain|].
    cbn [str_encode]. now rewrite Ec, Er. }
  destruct (f_write_then_position (pl ++ bytes_of_string line ++ b1 :: b2 :: br) h Hopen)
    as (before & Hb & Hw); [rewrite !length_app; cbn; lia|].
  unfold write. rewrite He. unfold bind, ret. rewrite Hw.
  eexists. split; [reflexivity|].
  unfold set_pos. cbn [content pos closed]. rewrite <- Hb.
  rewrite <- !app_assoc. cbn [app].
  set (tail := (bytes_of_string line ++ b1 :: b2 :: br
                ++ skipn (length before
                          + length (pl ++ bytes_of_string line ++ b1 :: b2 :: br))
                         (content h))%list).
  assert (R1 : readlines utf_8 (length ls)
                 (mkfile (before ++ pl ++ tail) (length before) false)
               = (Ok (map (fun l => l ++ newline) ls),
                  mkfile (before ++ pl ++ tail) (length before + k) false))
    by (apply readlines_complete; exact Hls).
  assert (R2 : readline utf_8 (mkfile (before ++ pl ++ tail) (length before + k) false)
               = (Raise UnicodeDecodeError,
                  mkfile (before ++ pl ++ tail)
                         (length before + k + String.length line + 1) false)).
  { pose proof (read_line_to_bad_byte utf_8 b1
                  (b2 :: br ++ skipn (length before
                          + length (pl ++ bytes_of_string line ++ b1 :: b2 :: br))
                         (content h))
                  ltac:(discriminate) Hb1 line (before ++ pl)%list "" Hplain) as R.
    assert (Hk : length (before ++ pl) = length before + k)
      by (rewrite length_app; unfold pl, k; now rewrite bytes_of_string_length).
    rewrite Hk in R. rewrite <- !app_assoc in R. exact R. }
  split; [exact R1|split; [exact R2|]].
  intros n Hn. exact (readlines_then_raise utf_8 _ _ _ n _ _ _ R1 R2 Hn).
Qed.

(** "ab", a newline, "caf" and an e with an acute accent (code 233): the
    first call returns the line "ab", the second raises. *)
Lemma non_ascii_text_is_not_read_back_witness :
  let h := mkfile [] 0 false in
  exists h',
    write (Text (lines_text ["ab"] ++ "caf" ++ String "233"%char newline)) utf_8 h
    = (inr (Ok VNone), h')
    /\ readlines utf_8 1 (set_pos h' 0) = (Ok ["ab" ++ newline], set_pos h' (0 + 3))
    /\ readline utf_8 (set_pos h' (0 + 3))
       = (Raise UnicodeDecodeError, set_pos h' (0 + 3 + 3 + 1))
    /\ (forall n, 1 < n ->
        readlines utf_8 n (set_pos h' 0)
        = (Raise UnicodeDecodeError, set_pos h' (0 + 3 + 3 + 1))).
Proof.
  apply (non_ascii_text_is_not_read_back ["ab"] "caf" "233"%char newline
           (mkfile [] 0 false));
    [reflexivity | reflexivity | cbn; lia | reflexivity].
Defined.

(** ** The mode of the constructor *)

Lemma rstrip_b_marker (mode : string) : rstrip "b" (mode ++ "b") = rstrip "b" mode.
Proof.
  induction mode as [|c r IH]; cbn [append rstrip]; [reflexivity|].
  now rewrite IH.
Qed.

Lemma rstrip_nonempty_head (chars : string) (c : ascii) (r : string) :
  rstrip chars r <> "" -> rstrip chars (String c r) = String c (rstrip chars r).
Proof. cbn [rstrip]. destruct (rstrip chars r); congruence. Qed.

(** X15: the constructor strips the binary marker from both ends of the mode
    and appends one, so a mode opens the file in the same way whether it is
    given with the marker behind it, before it, or without it ('r', 'rb' and
    'br' all open with 'rb'). *)
Theorem open_mode_ignores_binary_marker (mode : string) :
  open_mode (mode ++ "b") = open_mode mode
  /\ open_mode ("b" ++ mode) = open_mode mode
  /\ init_mode (open_mode mode) = init_mode mode.
Proof.
  unfold open_mode, init_mode, strip.
  assert (H2 : lstrip "b" (rstrip "b" ("b" ++ mode)) = lstrip "b" (rstrip "b" mode)).
  { cbn [append]. destruct (rstrip "b" mode) as [|c r] eqn:E.
    - cbn [rstrip]. now rewrite E.
    - rewrite rstrip_nonempty_head by (rewrite E; discriminate).
      rewrite E. reflexivity. }
  split; [now rewrite rstrip_b_marker|split; [now rewrite H2|]].
  rewrite rstrip_b_marker.
  (* stripping is idempotent *)
  assert (Hr : forall s, rstrip "b" (rstrip "b" s) = rstrip "b" s).
  { induction s as [|c r IH]; [reflexivity|].
    cbn [rstrip]. destruct (rstrip "b" r) as [|c' r'] eqn:E.
    - destruct (mem_char c "b") eqn:Hc; [reflexivity|].
      cbn [rstrip]. now rewrite Hc.
    - rewrite rstrip_nonempty_head by (rewrite IH; discriminate).
      now rewrite IH. }
  assert (Hl : forall s, rstrip "b" s = s -> rstrip "b" (lstrip "b" s) = lstrip "b" s).
  { induction s as [|c r IH]; intros Hs; [reflexivity|].
    cbn [lstrip]. destruct (mem_char c "b") eqn:Hc; [|exact Hs].
    apply IH. cbn [rstrip] in Hs.
    destruct (rstrip "b" r) as [|c' r'] eqn:E.
    - rewrite Hc in Hs. discriminate.
    - now inversion Hs. }
  assert (Hll : forall s, lstrip "b" (lstrip "b" s) = lstrip "b" s).
  { induction s as [|c r IH]; [reflexivity|].
    cbn [lstrip]. destruct (mem_char c "b") eqn:Hc; [exact IH|].
    cbn [lstrip]. now rewrite Hc. }
  rewrite (Hl (rstrip "b" mode) (Hr mode)). apply Hll.
Qed.

(** ** The size of a C long *)

(** X16: [read_int8] reads 8 bytes per value but unpacks them with the
    native code for a C [long].  With the bytes there, it returns values
    exactly on the platforms where a [long] has 8 bytes; on any other (a
    4-byte [long], as on Windows) it consumes the [8 * N] bytes and raises
    [IOError]. *)
Theorem read_int8_needs_an_8_byte_long (P : platform) (N : nat) (h : file) :
  closed h = false ->
  1 <= N ->
  8 * N <= remaining h ->
  ((exists v, fst (read_int8 P N h) = Ok v) <-> sizeof_long P = 8)
  /\ (sizeof_long P <> 8 ->
      read_int8 P N h = (Raise IOError, set_pos h (pos h + 8 * N))).
Proof.
  intros Hc HN Hrem.
  change (read_int8 P N) with (run_read P Rint8 N).
  rewrite run_read_one_raw_read by exact Hc. cbn [width fst].
  rewrite Nat.min_l by exact Hrem.
  set (buf := firstn (8 * N) (skipn (pos h) (content h))).
  assert (Hlen : length buf = 8 * N).
  { unfold buf. rewrite length_firstn, length_skipn. unfold remaining in Hrem. lia. }
  assert (Hbad : sizeof_long P <> 8 ->
                 fst (run_read P Rint8 N (mkfile buf 0 false)) = Raise IOError).
  { intros Hs. cbn [run_read]. unfold read_int8.
    destruct (Nat.eqb_spec N 1) as [->|H1].
    - unfold bind. rewrite f_read_open by reflexivity.
      cbn [pos content closed]. rewrite skipn_0, firstn_all2 by lia.
      unfold lift at 1.
      rewrite (unpack_one_short P "l"%char Cl buf) by (reflexivity || (cbn [size]; lia)).
      reflexivity.
    - unfold bind. rewrite f_read_open by reflexivity.
      cbn [pos content closed]. rewrite skipn_0, firstn_all2 by lia.
      unfold lift at 1.
      rewrite (unpack_run_short P N "l"%char Cl buf) by (reflexivity || (cbn [size]; nia)).
      reflexivity. }
  split; [split|].
  - intros [v Hv]. destruct (Nat.eq_dec (sizeof_long P) 8) as [E|E]; [exact E|].
    rewrite (Hbad E) in Hv. discriminate.
  - intros Hs. rewrite run_read_exact_buffer by (auto; try discriminate; cbn; lia).
    unfold decoded. destruct (Nat.eqb N 1).
    + destruct (convert_decode_scalar P Rint8 buf) as (v & Hv & _). now exists v.
    + destruct (convert_decode_run P Rint8 N buf) as (l & Hl & _).
      rewrite Hl. eexists. reflexivity.
  - intros Hs. now rewrite (Hbad Hs).
Qed.

Lemma read_int8_needs_an_8_byte_long_witness :
  let h := mkfile [x01; x00; x00; x00; x00; x00; x00; x00] 0 false in
  read_int8 windows_x64 1 h = (Raise IOError, set_pos h 8)
  /\ exists v, fst (read_int8 x86_64 1 h) = Ok v.
Proof.
  split.
  - apply (read_int8_needs_an_8_byte_long windows_x64 1
             (mkfile [x01; x00; x00; x00; x00; x00; x00; x00] 0 false));
      [reflexivity | lia | cbn; lia | discriminate].
  - apply (read_int8_needs_an_8_byte_long x86_64 1
             (mkfile [x01; x00; x00; x00; x00; x00; x00; x00] 0 false));
      [reflexivity | lia | cbn; lia | reflexivity].
Defined.

(** ** Reads in a row *)

Lemma decode_run_add (P : platform) (k : code) (n m : nat) :
  forall bs,
    decode_run P k (n + m) bs
    = (decode_run P k n bs ++ decode_run P k m (skipn (n * size P k) bs))%list.
Proof.
  induction n as [|n IH]; intros bs; cbn [Nat.add Nat.mul decode_run app].
  - now rewrite skipn_0.
  - rewrite IH, skipn_skipn. do 3 f_equal.
    apply (f_equal (fun i => skipn i bs)). lia.
Qed.

Lemma decode_run_prefix (P : platform) (k : code) (n : nat) (bs : list byte) :
  decode_run P k n (firstn (n * size P k) bs) = decode_run P k n bs.
Proof. now rewrite !decode_run_chunks, chunks_firstn. Qed.

Lemma map_outcome_app {A B} (f : A -> outcome B) (l1 l2 : list A) (a b : list B) :
  map_outcome f l1 = Ok a ->
  map_outcome f l2 = Ok b ->
  map_outcome f (l1 ++ l2) = Ok (a ++ b)%list.
Proof.
  revert a. induction l1 as [|x l1 IH]; intros a H1 H2; cbn [app map_outcome] in *.
  - inversion H1. exact H2.
  - destruct (f x) as [y|e]; [|discriminate]. cbn [and_then] in *.
    destruct (map_outcome f l1) as [ys|e]; [|discriminate]. cbn [and_then] in *.
    inversion H1; subst. now rewrite (IH ys eq_refl H2).
Qed.

Lemma size_of_read (P : platform) (r : typed_read) :
  (r = Rint8 -> sizeof_long P = 8) -> size P (code_of_read r) = width r.
Proof. intros HP. destruct r; try reflexivity. cbn. now apply HP. Qed.

(** What [decoded] holds: the scalars of the buffer, each passed through the
    method's [dtype]. *)
Lemma decoded_values (P : platform) (r : typed_read) (n : nat) (bs : list byte) :
  1 <= n ->
  exists l v,
    map_outcome (convert r)
      (decode_run P (code_of_read r) n (firstn (n * size P (code_of_read r)) bs)) = Ok l
    /\ (length (firstn (n * size P (code_of_read r)) bs) = n * size P (code_of_read r) ->
        decoded P r n (firstn (n * size P (code_of_read r)) bs) = Ok v
        /\ values v = l).
Proof.
  intros Hn. set (k := code_of_read r). set (buf := firstn (n * size P k) bs).
  destruct (Nat.eqb_spec n 1) as [E|E].
  - subst n. destruct (convert_decode_scalar P r buf) as (v & Hv & Hs).
    fold k in Hv. exists [v], v. split.
    + cbn [decode_run map_outcome].
      assert (Hf : firstn (size P k) buf = buf).
      { unfold buf. rewrite firstn_firstn. f_equal. lia. }
      rewrite Hf, Hv. reflexivity.
    + intros _. unfold decoded. fold k. cbn [Nat.eqb]. split; [exact Hv|].
      destruct v; try discriminate; reflexivity.
  - destruct (convert_decode_run P r n buf) as (l & Hl & _). fold k in Hl.
    exists l, (sequence_of r l). split; [exact Hl|].
    intros _. unfold decoded. fold k.
    apply Nat.eqb_neq in E. rewrite E, Hl. split; [reflexivity|].
    destruct r; reflexivity.
Qed.

(** X17: reading [N] scalars and then [M] more gives the scalars that one
    read of [N + M] gives, in the same order, and ends at the same position
    (for every typed read but [read_int1]). *)
Theorem typed_reads_compose (P : platform) (r : typed_read) (N M : nat) (h : file) :
  (r = Rint8 -> sizeof_long P = 8) ->
  r <> Rint1 ->
  closed h = false ->
  1 <= N ->
  1 <= M ->
  width r * (N + M) <= remaining h ->
  exists v1 v2 v h1 h2,
    run_read P r N h = (Ok v1, h1)
    /\ run_read P r M h1 = (Ok v2, h2)
    /\ run_read P r (N + M) h = (Ok v, h2)
    /\ values v = (values v1 ++ values v2)%list.
Proof.
  intros HP Hr Hc HN HM Hrem.
  pose proof (size_of_read P r HP) as Hsz.
  set (k := code_of_read r) in *. set (w := width r) in *.
  set (l := skipn (pos h) (content h)).
  assert (Hl : length l = remaining h) by (unfold l; apply length_skipn).
  set (h1 := set_pos h (pos h + w * N)).
  set (h2 := set_pos h (pos h + w * (N + M))).
  (* the three reads, each on its bytes *)
  assert (R1 : run_read P r N h = (decoded P r N (firstn (N * size P k) l), h1)).
  { rewrite run_read_one_raw_read by exact Hc. fold w l.
    rewrite Nat.min_l by nia. rewrite Hsz, (Nat.mul_comm N w).
    rewrite run_read_exact_buffer;
      [reflexivity | exact HP | rewrite length_firstn; fold w; nia | congruence]. }
  assert (R3 : run_read P r (N + M) h
               = (decoded P r (N + M) (firstn ((N + M) * size P k) l), h2)).
  { rewrite run_read_one_raw_read by exact Hc. fold w l.
    rewrite Nat.min_l by nia. rewrite Hsz, (Nat.mul_comm (N + M) w).
    rewrite run_read_exact_buffer;
      [reflexivity | exact HP | rewrite length_firstn; fold w; nia | congruence]. }
  assert (R2 : run_read P r M h1
               = (decoded P r M (firstn (M * size P k) (skipn (N * size P k) l)), h2)).
  { rewrite run_read_one_raw_read by exact Hc. fold w.
    assert (Hrem1 : remaining h1 = remaining h - w * N)
      by (unfold remaining, h1; cbn [content pos set_pos]; lia).
    rewrite Hrem1, Nat.min_l by nia.
    assert (Hs : skipn (pos h1) (content h1) = skipn (N * size P k) l).
    { unfold h1, l. cbn [pos content set_pos]. rewrite skipn_skipn, Hsz.
      f_equal. lia. }
    rewrite Hs, Hsz, (Nat.mul_comm M w).
    rewrite run_read_exact_buffer;
      [ | exact HP | rewrite length_firstn, length_skipn; fold w; nia | congruence].
    cbn [fst]. f_equal. unfold h2, h1, set_pos. cbn [pos content closed].
    f_equal. lia. }
  (* and what each holds *)
  destruct (decoded_values P r N l HN) as (l1 & v1 & S1 & D1).
  destruct (decoded_values P r M (skipn (N * size P k) l) HM) as (l2 & v2 & S2 & D2).
  destruct (decoded_values P r (N + M) l ltac:(lia)) as (l3 & v3 & S3 & D3).
  fold k in S1, S2, S3, D1, D2, D3.
  destruct D1 as [E1 V1]; [rewrite length_firstn, Hsz; fold w; nia|].
  destruct D2 as [E2 V2];
    [rewrite length_firstn, length_skipn, Hsz; fold w; nia|].
  destruct D3 as [E3 V3]; [rewrite length_firstn, Hsz; fold w; nia|].
  rewrite decode_run_prefix in S1, S2, S3.
  rewrite decode_run_add, (map_outcome_app _ _ _ _ _ S1 S2) in S3.
  injection S3 as S3.
  exists v1, v2, v3, h1, h2.
  rewrite R1, R2, R3, E1, E2, E3, V1, V2, V3, S3. repeat split.
Qed.

Lemma typed_reads_compose_witness :
  let h := mkfile [x01; x00; x02; x00; x03; x00; x04; x00] 0 false in
  exists v1 v2 v h1 h2,
    run_read x86_64 Rint2 1 h = (Ok v1, h1)
    /\ run_read x86_64 Rint2 3 h1 = (Ok v2, h2)
    /\ run_read x86_64 Rint2 4 h = (Ok v, h2)
    /\ values v = (values v1 ++ values v2)%list.
Proof.
  apply (typed_reads_compose x86_64 Rint2 1 3
           (mkfile [x01; x00; x02; x00; x03; x00; x04; x00] 0 false));
    [discriminate | discriminate | reflexivity | lia | lia | cbn; lia].
Defined.

(** ** Byte order *)

Lemma decode_swapped (P : platform) (k : code) (bs : list byte) :
  decode (swapped P) k (rev bs) = decode P k bs.
Proof.
  assert (Hn : native_order (swapped P) (rev bs) = native_order P bs).
  { unfold native_order, swapped. cbn [big_endian].
    destruct (big_endian P); cbn [negb]; [reflexivity|apply rev_involutive]. }
  assert (Hs : size (swapped P) k = size P k) by (destruct k; reflexivity).
  unfold decode. rewrite Hn, Hs. reflexivity.
Qed.

Lemma unpack_one_swapped (P : platform) (c : ascii) (k : code) (bs : list byte) :
  code_of_ascii c = Some k ->
  unpack (swapped P) (String c "") (rev bs)
  = match unpack P (String c "") bs with
    | Ok _ => Ok [decode P k bs]
    | Raise e => Raise e
    end.
Proof.
  intros E. unfold unpack.
  rewrite (struct_unpack_one (swapped P) c k _ E), (struct_unpack_one P c k _ E).
  rewrite length_rev, decode_swapped.
  replace (size (swapped P) k) with (size P k) by (destruct k; reflexivity).
  now destruct (Nat.eqb (length bs) (size P k)).
Qed.

(** X18: the scalars are in the byte order of the machine that runs the
    code.  A machine of the other byte order reads from the bytes of one
    scalar, reversed, exactly what this one reads from the bytes as they
    are (the same value, or the same failure); so a file moves between the
    two only with every scalar byte-swapped. *)
Theorem other_byte_order_reads_reversed_bytes
        (P : platform) (r : typed_read) (bs : list byte) :
  length bs = width r ->
  fst (run_read (swapped P) r 1 (mkfile (rev bs) 0 false))
  = fst (run_read P r 1 (mkfile bs 0 false)).
Proof.
  intros Hl.
  destruct r; unfold_reads; cbn [Nat.eqb width] in *;
    unfold bind; rewrite !f_read_open by reflexivity;
    cbn [pos content closed];
    rewrite !skipn_0, !firstn_all2 by (rewrite ?length_rev; lia);
    unfold lift at 1 3;
    match goal with
    | |- context [unpack P (String ?c "") bs] =>
        let k := eval cbv in (code_of_ascii c) in
        match k with
        | Some ?k' =>
            rewrite (unpack_one_swapped P c k' bs eq_refl);
            unfold unpack; rewrite (struct_unpack_one P c k' bs eq_refl)
        end
    end;
    destruct (Nat.eqb (length bs) _); reflexivity.
Qed.

Lemma other_byte_order_reads_reversed_bytes_witness :
  fst (run_read (swapped x86_64) Rint4 1 (mkfile [x00; x00; x01; x02] 0 false))
  = fst (run_read x86_64 Rint4 1 (mkfile [x02; x01; x00; x00] 0 false)).
Proof.
  apply (other_byte_order_reads_reversed_bytes x86_64 Rint4 [x02; x01; x00; x00]).
  reflexivity.
Defined.
